(** * PySide6Plot: the adaptive chart items of [libs/plot_item.py]

    A shallow embedding of [get_plot_item], [CandlestickPricesItem],
    [CandlestickVolumeItem] and [LinePlotItem], with the properties of the
    chart-item contract proved about it.

    Numbers are IEEE binary64 values ([PrimFloat.float]), which is what a
    Python [float] and a numpy [float64] are; ordinals are integers.
    Python exceptions are the [Raise] results of the [Result] type.  The Qt
    painter is modelled by the calls the module makes on it: a painter
    active on a [QPicture] appends each call to the picture, and a painter
    active on a surface keeps its pen, brush and transform and logs every
    primitive it draws with the state it was drawn in. *)

From Stdlib Require Import Floats ZArith Uint63.
From stdpp Require Import gmap strings list fin_maps.

Set Warnings "-inexact-float".

(** ** Python values and exceptions *)

(** The exceptions the module raises: [TypeError] in the factory,
    [ValueError] for a bad feature or column key; [IndexError] is what
    indexing an array past its end raises. *)
Inductive PyError :=
  | TypeError (msg : string)
  | ValueError (msg : string)
  | IndexError.

Inductive Result (A : Type) :=
  | Ok (a : A)
  | Raise (e : PyError).
Arguments Ok {A} a.
Arguments Raise {A} e.

(** Sequencing: an exception raised by the first step ends the whole. *)
#[global] Instance Result_bind : MBind Result := λ A B k r,
  match r with
  | Ok a => k a
  | Raise e => Raise e
  end.

#[global] Instance Result_ret : MRet Result := λ A a, Ok a.

(** [for x in l: body] where the body may raise: the loop stops at the
    first exception. *)
Fixpoint for_each {S X : Type} (body : S → X → Result S) (s : S) (l : list X)
  : Result S :=
  match l with
  | [] => Ok s
  | x :: l' => s' ← body s x; for_each body s' l'
  end.

(** [a[i]] on a Python sequence. *)
Definition getitem {X : Type} (a : list X) (i : nat) : Result X :=
  match a !! i with
  | Some x => Ok x
  | None => Raise IndexError
  end.

(** [l.index(x)]: the first position of [x], a [ValueError] when absent. *)
Fixpoint list_index (x : string) (l : list string) : Result nat :=
  match l with
  | [] => Raise (ValueError "x not in list")
  | y :: l' => if decide (x = y) then Ok 0 else i ← list_index x l'; Ok (S i)
  end.

(** A number: a Python [int] or a [float]. *)
Inductive PyNum :=
  | PyInt (z : Z)
  | PyFloat (f : float).

(** Conversion of an integer operand in mixed arithmetic (exact for the
    ordinals of a series, which are far below 2^53).  The integer goes
    through a 63-bit word: the definition is the conversion of Python for
    integers of magnitude below 2^63 only. *)
Definition float_of_int (z : Z) : float :=
  if (z <? 0)%Z then PrimFloat.opp (PrimFloat.of_uint63 (Uint63.of_Z (- z)))
  else PrimFloat.of_uint63 (Uint63.of_Z z).

(** [a > b] on floats. *)
Definition gt (a b : float) : bool := PrimFloat.ltb b a.

(** ** Qt geometry, pens and brushes *)

Record QPointF := mkQPointF { pt_x : float; pt_y : float }.

(** [QRectF(left, top, width, height)]. *)
Record QRectF := mkQRectF {
  rect_left : float;
  rect_top : float;
  rect_width : float;
  rect_height : float
}.

Definition Color := string.

Record QBrush := { brush_color : Color }.
Record QPen := { pen_color : Color; pen_width : float }.

(** [pg.mkBrush(color)]. *)
Definition mkBrush (c : Color) : QBrush := {| brush_color := c |}.

(** [pg.mkPen(color)] and [pg.mkPen(color, width=w)]; the width defaults
    to 1. *)
Definition mkPen (c : Color) (width : option float) : QPen :=
  {| pen_color := c; pen_width := default 1%float width |}.

(** The calls a [QPicture] records. *)
Inductive PaintCmd :=
  | SetBrush (b : QBrush)
  | SetPen (p : QPen)
  | DrawRect (r : QRectF)
  | DrawPolyline (pts : list QPointF).

Definition QPicture := list PaintCmd.

(** A [QPainter] opened on a picture, [QtGui.QPainter(self.picture)]:
    every call is appended to the picture. *)
Module Recorder.
Definition setBrush (b : QBrush) (pic : QPicture) : QPicture := pic ++ [SetBrush b].
Definition setPen (p : QPen) (pic : QPicture) : QPicture := pic ++ [SetPen p].
Definition drawRect (r : QRectF) (pic : QPicture) : QPicture := pic ++ [DrawRect r].
Definition drawPolyline (pts : list QPointF) (pic : QPicture) : QPicture :=
  pic ++ [DrawPolyline pts].
End Recorder.

(** ** Style and series *)

(** Modelled from the spec: [libs/style.py] is not among the sources; a
    style is a value object with the fields the module reads. *)
Record Style := {
  positive_color : Color;
  negative_color : Color;
  volume_color : Color;
  bar_width : float;
  shadow_width : float;
  line_color : Color;
  line_width : float;
  marker_color : Color;
  marker_size : float
}.

(** Modelled from the spec: [libs/data_handler.py] is not among the
    sources.  Iterating a [PricesDataFrame] yields one tuple
    [(t, open, close, high, low)] per ordinal, in ordinal order. *)
Record PriceRow := {
  row_t : Z;
  row_open : float;
  row_close : float;
  row_high : float;
  row_low : float
}.

(** [data[index]] on the tuple a [PricesDataFrame] yields. *)
Definition PriceRow_getitem (data : PriceRow) (index : nat) : Result PyNum :=
  match index with
  | 0 => Ok (PyInt (row_t data))
  | 1 => Ok (PyFloat (row_open data))
  | 2 => Ok (PyFloat (row_close data))
  | 3 => Ok (PyFloat (row_high data))
  | 4 => Ok (PyFloat (row_low data))
  | _ => Raise IndexError
  end.

Record PricesDataFrame := { prices_rows : list PriceRow }.

(** Modelled from the spec: iterating a [VolumeDataFrame] yields one tuple
    [(t, volume)] per ordinal. *)
Record VolumeDataFrame := { volume_rows : list (Z * float) }.

(** Modelled from the spec: a pandas frame is an index of ordinals and
    named numeric columns. *)
Record DataFrame := {
  df_index : list Z;
  df_columns : gmap string (list float)
}.

(** The invariant of the spec's data model: every column is aligned with
    the index. *)
Definition DataFrame_aligned (df : DataFrame) : Prop :=
  map_Forall (λ _ y, length y = length (df_index df)) (df_columns df).

#[global] Instance DataFrame_aligned_dec (df : DataFrame) :
  Decision (DataFrame_aligned df).
Proof. unfold DataFrame_aligned. apply _. Defined.

(** Modelled from the spec: a generic [ChildDataFrame] wraps a frame and
    the column keys to plot. *)
Record ChildDataFrame := {
  data_frame : DataFrame;
  data_keys : list string
}.

(** The object handed to the factory, by its class. *)
Inductive SeriesObject :=
  | APricesDataFrame (d : PricesDataFrame)
  | AVolumeDataFrame (d : VolumeDataFrame)
  | AChildDataFrame (d : ChildDataFrame).

(** Modelled from the spec: the range query of a series,
    [get_local_range(start, end) -> (min_value, max_value)], belongs to
    [libs/data_handler.py]; the items only call it. *)
Class IndexedSeries (D : Type) := {
  get_local_range : D → float → float → float * float
}.

(** ** The painter of a drawing surface *)

(** The operations of [QTransform] the module relies on: the identity,
    mapping a point, and the translation [drawPicture] applies. *)
Class QTransformOps (QTransform : Type) := {
  transform_identity : QTransform;
  transform_map : QTransform → QPointF → QPointF;
  transform_translate : float → float → QTransform → QTransform
}.

Inductive Shape :=
  | Rect (r : QRectF)
  | Polyline (pts : list QPointF)
  | Ellipse (center : QPointF) (rx ry : float).

(** A primitive as it reached the surface: the shape with the pen, brush
    and transform that were current when it was drawn. *)
Record Drawn (QTransform : Type) := mkDrawn {
  drawn_shape : Shape;
  drawn_pen : QPen;
  drawn_brush : QBrush;
  drawn_transform : QTransform
}.
Arguments mkDrawn {QTransform} _ _ _ _.
Arguments drawn_shape {QTransform} _.
Arguments drawn_pen {QTransform} _.
Arguments drawn_brush {QTransform} _.
Arguments drawn_transform {QTransform} _.

Record QPainter (QTransform : Type) := mkQPainter {
  pen : QPen;
  brush : QBrush;
  transform : QTransform;
  saved : list (QPen * QBrush * QTransform);
  surface : list (Drawn QTransform)
}.
Arguments mkQPainter {QTransform} _ _ _ _ _.
Arguments pen {QTransform} _.
Arguments brush {QTransform} _.
Arguments transform {QTransform} _.
Arguments saved {QTransform} _.
Arguments surface {QTransform} _.

Module Painter.
Section Ops.
Context `{QTransformOps QTransform}.
Implicit Type p : QPainter QTransform.

Definition setPen (pn : QPen) p : QPainter QTransform :=
  mkQPainter pn (brush p) (transform p) (saved p) (surface p).

Definition setBrush (b : QBrush) p : QPainter QTransform :=
  mkQPainter (pen p) b (transform p) (saved p) (surface p).

Definition setTransform (t : QTransform) p : QPainter QTransform :=
  mkQPainter (pen p) (brush p) t (saved p) (surface p).

Definition resetTransform p : QPainter QTransform :=
  setTransform transform_identity p.

Definition translate (dx dy : float) p : QPainter QTransform :=
  setTransform (transform_translate dx dy (transform p)) p.

Definition draw (s : Shape) p : QPainter QTransform :=
  mkQPainter (pen p) (brush p) (transform p) (saved p)
    (surface p ++ [mkDrawn s (pen p) (brush p) (transform p)]).

Definition drawRect (r : QRectF) p := draw (Rect r) p.
Definition drawPolyline (pts : list QPointF) p := draw (Polyline pts) p.
Definition drawEllipse (center : QPointF) (rx ry : float) p :=
  draw (Ellipse center rx ry) p.

Definition save p : QPainter QTransform :=
  mkQPainter (pen p) (brush p) (transform p)
    ((pen p, brush p, transform p) :: saved p) (surface p).

(** [restore()] without a matching [save()] changes nothing. *)
Definition restore p : QPainter QTransform :=
  match saved p with
  | [] => p
  | (pn, b, t) :: st => mkQPainter pn b t st (surface p)
  end.

Definition exec p (c : PaintCmd) : QPainter QTransform :=
  match c with
  | SetBrush b => setBrush b p
  | SetPen pn => setPen pn p
  | DrawRect r => drawRect r p
  | DrawPolyline pts => drawPolyline pts p
  end.

(** [QPicture.play]: the recorded calls replayed in order. *)
Definition play (pic : QPicture) p : QPainter QTransform :=
  fold_left exec pic p.

(** [QPainter.drawPicture(x, y, picture)]: the picture is replayed at
    the given offset between a [save()] and a [restore()]. *)
Definition drawPicture (x y : float) (pic : QPicture) p : QPainter QTransform :=
  restore (play pic (translate x y (save p))).
End Ops.
End Painter.

(** ** The plot items *)

Module CandlestickPricesItem.
Record t := {
  data : PricesDataFrame;
  style : Style;
  picture : QPicture
}.

(** The body of the loop of [__init__]: the bar of one ordinal. *)
Definition draw_candle (style : Style) (p : QPicture) (row : PriceRow)
  : QPicture :=
  let w := bar_width style in
  let t := float_of_int (row_t row) in
  let open_price := row_open row in
  let close_price := row_close row in
  let high_price := row_high row in
  let low_price := row_low row in
  let p :=
    if gt close_price open_price then
      let p := Recorder.setBrush (mkBrush (positive_color style)) p in
      let p := Recorder.setPen (mkPen (positive_color style) None) p in
      Recorder.drawRect
        (mkQRectF (t - w) open_price (w * 2) (close_price - open_price)) p
    else
      let p := Recorder.setBrush (mkBrush (negative_color style)) p in
      let p := Recorder.setPen (mkPen (negative_color style) None) p in
      Recorder.drawRect
        (mkQRectF (t - w) close_price (w * 2) (open_price - close_price)) p
  in
  Recorder.drawRect
    (mkQRectF (t - shadow_width style / 2) low_price (shadow_width style)
       (high_price - low_price)) p.

Definition __init__ (data : PricesDataFrame) (style : Style) : t :=
  {| data := data;
     style := style;
     picture := fold_left (draw_candle style) (prices_rows data) [] |}.

Definition paint `{QTransformOps QTransform} (self : t)
    (p : QPainter QTransform) : QPainter QTransform :=
  Painter.drawPicture 0 0 (picture self) p.

Definition get_local_plot_range `{IndexedSeries PricesDataFrame} (self : t)
    (x_start x_end : float) : float * float :=
  get_local_range (data self) x_start x_end.

Definition available_keys : list string := ["open"; "close"; "high"; "low"].

(** [get_feature_value(self, key="close")]; [None] is the call that
    leaves the argument out. *)
Definition get_feature_value (self : t) (key : option string)
  : Result (list PyNum) :=
  let key := default "close" key in
  if bool_decide (key ∉ available_keys) then
    Raise (ValueError "value_key must be one of 'open','close','high','low'")
  else
    i ← list_index key available_keys;
    let index := i + 1 in
    mapM (λ data, PriceRow_getitem data index) (prices_rows (data self)).
End CandlestickPricesItem.

Module CandlestickVolumeItem.
Record t := {
  data : VolumeDataFrame;
  style : Style;
  picture : QPicture
}.

Definition draw_bar (style : Style) (p : QPicture) (row : Z * float)
  : QPicture :=
  let w := bar_width style in
  let '(t, volume) := row in
  Recorder.drawRect (mkQRectF (float_of_int t - w) 0 (w * 2) (volume / 1e8)) p.

Definition __init__ (data : VolumeDataFrame) (style : Style) : t :=
  let p := Recorder.setBrush (mkBrush (volume_color style)) [] in
  let p := Recorder.setPen (mkPen (volume_color style) None) p in
  {| data := data;
     style := style;
     picture := fold_left (draw_bar style) (volume_rows data) p |}.

Definition paint `{QTransformOps QTransform} (self : t)
    (p : QPainter QTransform) : QPainter QTransform :=
  Painter.drawPicture 0 0 (picture self) p.

(** The first component is the Python integer [0]. *)
Definition get_local_plot_range `{IndexedSeries VolumeDataFrame} (self : t)
    (x_start x_end : float) : Z * float :=
  let '(min_v, max_v) := get_local_range (data self) x_start x_end in
  (0%Z, (max_v / 1e8)%float).

Definition get_feature_value (self : t) (key : option string) : list float :=
  (λ data : Z * float, (data.2 / 1e8)%float) <$> volume_rows (data self).
End CandlestickVolumeItem.

(** The function objects stored in [MARKER_DRAWER]. *)
Inductive MarkerDrawer :=
  | draw_circle_marker_ref.

Definition draw_circle_marker `{QTransformOps QTransform}
    (p : QPainter QTransform) (canvas_pt : QPointF) (marker_size : float)
  : QPainter QTransform :=
  Painter.drawEllipse canvas_pt marker_size marker_size p.

(** Calling a stored drawer. *)
Definition call_marker_drawer `{QTransformOps QTransform} (f : MarkerDrawer)
  : QPainter QTransform → QPointF → float → QPainter QTransform :=
  match f with
  | draw_circle_marker_ref => draw_circle_marker
  end.

Module LinePlotItem.
Definition MARKER_DRAWER : gmap string MarkerDrawer :=
  {[ "circle" := draw_circle_marker_ref; "o" := draw_circle_marker_ref ]}.

Record t := {
  data : ChildDataFrame;
  style : Style;
  marker_drawer : option MarkerDrawer;
  picture : QPicture
}.

(** [[QPointF(x[i], y[i]) for i in range(len(x))]]. *)
Definition polyline_points (x : list Z) (y : list float)
  : Result (list QPointF) :=
  mapM (λ i, xi ← getitem x i; yi ← getitem y i;
             Ok (mkQPointF (float_of_int xi) yi))
       (seq 0 (length x)).

(** The body of the loop of [__init__] over [data.data_keys]. *)
Definition draw_column (data : ChildDataFrame) (x : list Z) (p : QPicture)
    (data_key : string) : Result QPicture :=
  match df_columns (data_frame data) !! data_key with
  | None =>
      Raise (ValueError
               ("Data key '" +:+ data_key +:+ "' not found in data frame."))
  | Some y =>
      pts ← polyline_points x y;
      Ok (Recorder.drawPolyline pts p)
  end.

(** [__init__(self, data, style, marker=None)]; the marker is [None] or
    a string.  This is the call as its caller sees it: the item, or the
    exception.  [__init__on_self] below follows the object itself. *)
Definition __init__ (data : ChildDataFrame) (style : Style)
    (marker : option string) : Result t :=
  let marker_drawer := marker ≫= (MARKER_DRAWER !!.) in
  let p := Recorder.setPen (mkPen (line_color style) (Some (line_width style))) [] in
  let x := df_index (data_frame data) in
  p ← for_each (draw_column data x) p (data_keys data);
  Ok {| data := data;
        style := style;
        marker_drawer := marker_drawer;
        picture := p |}.

(** *** The object while [__init__] runs

    [__init__] runs on an object that exists already, and what it has
    assigned stays assigned when a later statement raises.  [Self] is
    that object: an attribute is [None] until it is assigned ([style] is
    Python's [None] from [AdaptiveGraphObject.__init__] on), and
    [painting_active] is [self.picture.paintingActive()]: a [QPainter]
    begun on the picture has not been ended. *)
Record Self := {
  self_data : option ChildDataFrame;
  self_style : option Style;
  self_marker_drawer : option (option MarkerDrawer);
  self_picture : option QPicture;
  painting_active : bool
}.

Definition set_self_data (d : ChildDataFrame) (self : Self) : Self :=
  {| self_data := Some d; self_style := self_style self;
     self_marker_drawer := self_marker_drawer self;
     self_picture := self_picture self;
     painting_active := painting_active self |}.

Definition set_self_style (s : Style) (self : Self) : Self :=
  {| self_data := self_data self; self_style := Some s;
     self_marker_drawer := self_marker_drawer self;
     self_picture := self_picture self;
     painting_active := painting_active self |}.

Definition set_self_marker_drawer (m : option MarkerDrawer) (self : Self)
  : Self :=
  {| self_data := self_data self; self_style := self_style self;
     self_marker_drawer := Some m;
     self_picture := self_picture self;
     painting_active := painting_active self |}.

Definition set_self_picture (pic : QPicture) (self : Self) : Self :=
  {| self_data := self_data self; self_style := self_style self;
     self_marker_drawer := self_marker_drawer self;
     self_picture := Some pic;
     painting_active := painting_active self |}.

Definition set_painting_active (b : bool) (self : Self) : Self :=
  {| self_data := self_data self; self_style := self_style self;
     self_marker_drawer := self_marker_drawer self;
     self_picture := self_picture self;
     painting_active := b |}.

(** [AdaptiveGraphObject.__init__]: [self.style = None]. *)
Definition super__init__ : Self :=
  {| self_data := None; self_style := None; self_marker_drawer := None;
     self_picture := None; painting_active := false |}.

(** A call on the painter [p] that paints into [self.picture]. *)
Definition record_on_picture (cmd : QPicture → QPicture) (self : Self) : Self :=
  set_self_picture (cmd (default [] (self_picture self))) self.

(** The loop of [__init__] on the object: a column that raises leaves
    the picture as the columns before it made it. *)
Fixpoint draw_columns_on_self (data : ChildDataFrame) (x : list Z)
    (keys : list string) (self : Self) : Result unit * Self :=
  match keys with
  | [] => (Ok tt, self)
  | data_key :: keys =>
      match draw_column data x (default [] (self_picture self)) data_key with
      | Ok pic => draw_columns_on_self data x keys (set_self_picture pic self)
      | Raise e => (Raise e, self)
      end
  end.

(** [__init__] statement by statement on the object: the outcome, and
    the object as the call leaves it.  [p.end()] is the last statement and
    runs only when the loop has returned. *)
Definition __init__on_self (data : ChildDataFrame) (style : Style)
    (marker : option string) : Result unit * Self :=
  let self := super__init__ in
  let self := set_self_data data self in
  let self := set_self_style style self in
  let self := set_self_marker_drawer (marker ≫= (MARKER_DRAWER !!.)) self in
  let self := set_self_picture [] self in
  let self := set_painting_active true self in
  let self :=
    record_on_picture
      (Recorder.setPen (mkPen (line_color style) (Some (line_width style))))
      self in
  let x := df_index (data_frame data) in
  match draw_columns_on_self data x (data_keys data) self with
  | (Ok _, self) => (Ok tt, set_painting_active false self)
  | (Raise e, self) => (Raise e, self)
  end.

Section Paint.
Context `{QTransformOps QTransform}.

(** The inner loop of [paint]: one marker per point of a column. *)
Definition draw_markers (drawer : MarkerDrawer) (transform : QTransform)
    (marker_size : float) (x : list Z) (y : list float)
    (p : QPainter QTransform) : Result (QPainter QTransform) :=
  for_each (λ p i,
      xi ← getitem x i;
      yi ← getitem y i;
      let data_pt := mkQPointF (float_of_int xi) yi in
      let canvas_pt := transform_map transform data_pt in
      Ok (call_marker_drawer drawer p canvas_pt marker_size))
    p (seq 0 (length x)).

(** [paint(self, p, *args)].  [p.transform()] hands back the transform by
    value, so the later [resetTransform] does not touch the saved copy. *)
Definition paint (self : t) (p : QPainter QTransform)
  : Result (QPainter QTransform) :=
  let p := Painter.drawPicture 0 0 (picture self) p in
  match marker_drawer self with
  | None => Ok p
  | Some drawer =>
      let transform := transform p in
      let p := Painter.setPen
                 (mkPen (marker_color (style self))
                        (Some (line_width (style self)))) p in
      let p := Painter.setBrush (mkBrush (marker_color (style self))) p in
      let marker_size := (marker_size (style self) / 2)%float in
      let x := df_index (data_frame (data self)) in
      let p := Painter.resetTransform p in
      p ← for_each (λ p data_key,
             match df_columns (data_frame (data self)) !! data_key with
             | None => Ok p
             | Some y => draw_markers drawer transform marker_size x y p
             end) p (data_keys (data self));
      Ok (Painter.setTransform transform p)
  end.
End Paint.

Definition get_local_plot_range `{IndexedSeries ChildDataFrame} (self : t)
    (x_start x_end : float) : float * float :=
  get_local_range (data self) x_start x_end.
End LinePlotItem.

(** ** The factory *)

(** The subclasses of [AdaptiveGraphObject]. *)
Inductive AdaptiveGraphObject :=
  | PricesItem (item : CandlestickPricesItem.t)
  | VolumeItem (item : CandlestickVolumeItem.t)
  | LineItem (item : LinePlotItem.t).

Definition get_plot_item (data_frame : SeriesObject) (style : Style)
  : Result AdaptiveGraphObject :=
  match data_frame with
  | APricesDataFrame d => Ok (PricesItem (CandlestickPricesItem.__init__ d style))
  | AVolumeDataFrame d => Ok (VolumeItem (CandlestickVolumeItem.__init__ d style))
  | AChildDataFrame _ => Raise (TypeError "data_frame must be PricesDataFrame")
  end.

(** ** Vocabulary of the statements *)

(** What a paint call put on the surface: the primitives of [after] that
    were not yet there in [before]. *)
Definition painted {QTransform : Type} (before after : QPainter QTransform)
  : list (Drawn QTransform) :=
  drop (length (surface before)) (surface after).

(** The colours a primitive was drawn with. *)
Definition drawn_colors {QTransform : Type} (d : Drawn QTransform)
  : QPen * QBrush :=
  (drawn_pen d, drawn_brush d).

(** The data point of row [i] of a column, [QPointF(x[i], y[i])]. *)
Definition data_point (xi : Z) (yi : float) : QPointF :=
  mkQPointF (float_of_int xi) yi.

(** The data points of the plotted columns, column by column in the order
    of the keys, each column in ordinal order. *)
Definition plotted_points (data : ChildDataFrame) : list QPointF :=
  key ← data_keys data;
  zip_with data_point (df_index (data_frame data))
    (default [] (df_columns (data_frame data) !! key)).

(** A marker as [draw_circle_marker] puts it on the surface. *)
Definition circle_marker {QTransform : Type} (style : Style)
    (frame : QTransform) (center : QPointF) : Drawn QTransform :=
  mkDrawn (Ellipse center (marker_size style / 2) (marker_size style / 2))
    (mkPen (marker_color style) (Some (line_width style)))
    (mkBrush (marker_color style)) frame.

(** The two rectangles of one candlestick as they reach a surface whose
    transform is [frame]. *)
Definition candle_color (style : Style) (row : PriceRow) : Color :=
  if gt (row_close row) (row_open row) then positive_color style
  else negative_color style.

Definition candle_body_rect (style : Style) (row : PriceRow) : QRectF :=
  let w := bar_width style in
  let t := float_of_int (row_t row) in
  if gt (row_close row) (row_open row) then
    mkQRectF (t - w) (row_open row) (w * 2) (row_close row - row_open row)
  else
    mkQRectF (t - w) (row_close row) (w * 2) (row_open row - row_close row).

Definition candle_shadow_rect (style : Style) (row : PriceRow) : QRectF :=
  mkQRectF (float_of_int (row_t row) - shadow_width style / 2) (row_low row)
    (shadow_width style) (row_high row - row_low row).

Definition candle_drawn {QTransform : Type} (style : Style)
    (frame : QTransform) (row : PriceRow) : list (Drawn QTransform) :=
  let c := candle_color style row in
  [ mkDrawn (Rect (candle_body_rect style row)) (mkPen c None) (mkBrush c) frame;
    mkDrawn (Rect (candle_shadow_rect style row)) (mkPen c None) (mkBrush c) frame ].

(** A transform that only translates: the instance the examples run on. *)
#[global] Instance Translation : QTransformOps (float * float) := {|
  transform_identity := (0%float, 0%float);
  transform_map := λ t pt, mkQPointF (pt_x pt + t.1) (pt_y pt + t.2);
  transform_translate := λ dx dy t, ((t.1 + dx)%float, (t.2 + dy)%float)
|}.

(** Modelled from the spec: a range query for the examples, the minimum
    and maximum of the values whose ordinal lies in the closed window, and
    [(0, 0)] for an empty window. *)
Definition window_range (rows : list (Z * float)) (x_start x_end : float)
  : float * float :=
  let inside := filter (λ row : Z * float,
      PrimFloat.leb x_start (float_of_int row.1) = true
      ∧ PrimFloat.leb (float_of_int row.1) x_end = true) rows in
  match inside.*2 with
  | [] => (0%float, 0%float)
  | v :: vs =>
      (foldr (λ a b, if PrimFloat.ltb a b then a else b) v vs,
       foldr (λ a b, if PrimFloat.ltb b a then a else b) v vs)
  end.

Definition VolumeWindowSeries : IndexedSeries VolumeDataFrame :=
  {| get_local_range := λ d, window_range (volume_rows d) |}.

(** The series and style of the examples. *)
Definition example_style : Style := {|
  positive_color := "r"; negative_color := "g"; volume_color := "b";
  bar_width := 0.25; shadow_width := 0.5;
  line_color := "w"; line_width := 1;
  marker_color := "y"; marker_size := 6
|}.

Definition example_prices : PricesDataFrame := {| prices_rows := [
  {| row_t := 0; row_open := 1; row_close := 2; row_high := 2.5; row_low := 0.8 |};
  {| row_t := 1; row_open := 2; row_close := 1; row_high := 2.2; row_low := 0.9 |};
  {| row_t := 2; row_open := 1; row_close := 1; row_high := 1.5; row_low := 0.9 |}
] |}.

Definition example_volume : VolumeDataFrame :=
  {| volume_rows := [(0%Z, 5e7%float); (1%Z, 2e8%float); (2%Z, 1e8%float)] |}.

Definition example_frame : DataFrame := {|
  df_index := [0%Z; 1%Z];
  df_columns := {[ "data" := [1.5%float; 2.5%float] ]}
|}.

Definition example_line : ChildDataFrame :=
  {| data_frame := example_frame; data_keys := ["data"] |}.

Definition example_line_missing : ChildDataFrame :=
  {| data_frame := example_frame; data_keys := ["data"; "volume"] |}.

Definition example_painter : QPainter (float * float) :=
  mkQPainter (mkPen "k" None) (mkBrush "k") (10%float, 20%float) [] [].

(** What replaying a picture draws on a painter whose pen, brush and
    transform are [pn], [b] and [frame] when the replay starts. *)
Fixpoint rendered {QTransform : Type} (pic : QPicture) (pn : QPen) (b : QBrush)
    (frame : QTransform) : list (Drawn QTransform) :=
  match pic with
  | [] => []
  | SetBrush b' :: pic' => rendered pic' pn b' frame
  | SetPen pn' :: pic' => rendered pic' pn' b frame
  | DrawRect r :: pic' => mkDrawn (Rect r) pn b frame :: rendered pic' pn b frame
  | DrawPolyline pts :: pic' =>
      mkDrawn (Polyline pts) pn b frame :: rendered pic' pn b frame
  end.

(** The pen and the brush a replay ends with. *)
Definition pen_after (pic : QPicture) (pn : QPen) : QPen :=
  fold_left (λ pn c, match c with SetPen pn' => pn' | _ => pn end) pic pn.

Definition brush_after (pic : QPicture) (b : QBrush) : QBrush :=
  fold_left (λ b c, match c with SetBrush b' => b' | _ => b end) pic b.


(** The polyline of one requested column as it reaches the surface. *)
Definition column_polyline {QTransform : Type} (data : ChildDataFrame)
    (style : Style) (b : QBrush) (frame : QTransform) (key : string)
  : Drawn QTransform :=
  mkDrawn
    (Polyline (zip_with data_point (df_index (data_frame data))
                 (default [] (df_columns (data_frame data) !! key))))
    (mkPen (line_color style) (Some (line_width style))) b frame.

(** The bar of one volume row as it reaches the surface. *)
Definition volume_bar {QTransform : Type} (style : Style) (frame : QTransform)
    (row : Z * float) : Drawn QTransform :=
  mkDrawn
    (Rect (mkQRectF (float_of_int row.1 - bar_width style) 0
             (bar_width style * 2) (row.2 / 1e8)))
    (mkPen (volume_color style) None) (mkBrush (volume_color style)) frame.

(** ** The scroll bar of [widgets/fluent_scroller.py] *)

(** [FluentScrollBar] keeps its range, value and steps in Python
    attributes and leaves geometry to Qt.  The attributes are a record;
    the Qt side (sizes of the bar, its parent and its handle, the groove
    animation, the timer) is a state of its own, reached through the
    calls the class makes.  A method runs on both, and an exception keeps
    the attributes assigned before it was raised.  Signals are logged in
    the order they are emitted; no slot is connected to them here.  The
    bar has a parent widget, and its integers are those of a Qt widget,
    for which the conversion to [float] in a division is exact. *)
Module FluentScrollBar.
Local Open Scope Z_scope.

Inductive Exc :=
  | AttributeError (attr : string)
  | OverflowError
  | ValueError (msg : string)
  | ZeroDivisionError.

Inductive Outcome (A : Type) :=
  | Returned (a : A)
  | Raised (e : Exc).
Arguments Returned {A} a.
Arguments Raised {A} e.

Inductive Orientation :=
  | Vertical
  | Horizontal.

Inductive Signal :=
  | rangeChanged (range : Z * Z)
  | valueChanged (value : Z)
  | sliderPressed
  | sliderReleased
  | sliderMoved.

(** The bound methods handed to [QTimer.singleShot]. *)
Inductive Callback :=
  | expand_ref
  | collapse_ref.

(** [QPoint]. *)
Record QPoint := mkQPoint { point_x : Z; point_y : Z }.

(** The Qt calls of the class, on a Qt state [W]. *)
Class QtSide (W : Type) := {
  width : W → Z;
  height : W → Z;
  parent_width : W → Z;
  parent_height : W → Z;
  handle_width : W → Z;
  handle_height : W → Z;
  handle_right : W → Z;
  handle_bottom : W → Z;
  handle_setFixedWidth : Z → W → W;
  handle_setFixedHeight : Z → W → W;
  handle_move : Z → Z → W → W;
  groove_resize_to_self : W → W;
  groove_fadeIn : W → W;
  groove_fadeOut : W → W;
  groove_opacity : W → float;
  isEnabled : W → bool;
  timer_stop : W → W;
  timer_singleShot : Z → Callback → W → W;
  setVisible : bool → W → W;
  childAt_is_handle : QPoint → W → bool;
  super_mousePressEvent : QPoint → W → W;
  super_mouseReleaseEvent : W → W
}.

(** The Python attributes of a [FluentScrollBar].  [isEnter] is the
    attribute the event handlers assign; [__init__] assigns [_isEnter]
    only, so [isEnter] does not exist before the first enter or leave
    event. *)
Record Attrs := mkAttrs {
  _orientation : Orientation;
  _singleStep : Z;
  _pageStep : Z;
  _padding : Z;
  _minimum : Z;
  _maximum : Z;
  _value : Z;
  _isPressed : bool;
  _isEnter : bool;
  _isExpanded : bool;
  _pressedPos : QPoint;
  _isForceHidden : bool;
  isEnter : option bool;
  emitted : list Signal
}.

Definition set_singleStep (v : Z) (a : Attrs) : Attrs :=
  mkAttrs (_orientation a) v (_pageStep a) (_padding a) (_minimum a)
    (_maximum a) (_value a) (_isPressed a) (_isEnter a) (_isExpanded a)
    (_pressedPos a) (_isForceHidden a) (isEnter a) (emitted a).

Definition set_pageStep (v : Z) (a : Attrs) : Attrs :=
  mkAttrs (_orientation a) (_singleStep a) v (_padding a) (_minimum a)
    (_maximum a) (_value a) (_isPressed a) (_isEnter a) (_isExpanded a)
    (_pressedPos a) (_isForceHidden a) (isEnter a) (emitted a).

Definition set_minimum (v : Z) (a : Attrs) : Attrs :=
  mkAttrs (_orientation a) (_singleStep a) (_pageStep a) (_padding a) v
    (_maximum a) (_value a) (_isPressed a) (_isEnter a) (_isExpanded a)
    (_pressedPos a) (_isForceHidden a) (isEnter a) (emitted a).

Definition set_maximum (v : Z) (a : Attrs) : Attrs :=
  mkAttrs (_orientation a) (_singleStep a) (_pageStep a) (_padding a)
    (_minimum a) v (_value a) (_isPressed a) (_isEnter a) (_isExpanded a)
    (_pressedPos a) (_isForceHidden a) (isEnter a) (emitted a).

Definition set_value (v : Z) (a : Attrs) : Attrs :=
  mkAttrs (_orientation a) (_singleStep a) (_pageStep a) (_padding a)
    (_minimum a) (_maximum a) v (_isPressed a) (_isEnter a) (_isExpanded a)
    (_pressedPos a) (_isForceHidden a) (isEnter a) (emitted a).

Definition set_isPressed (v : bool) (a : Attrs) : Attrs :=
  mkAttrs (_orientation a) (_singleStep a) (_pageStep a) (_padding a)
    (_minimum a) (_maximum a) (_value a) v (_isEnter a) (_isExpanded a)
    (_pressedPos a) (_isForceHidden a) (isEnter a) (emitted a).

Definition set_isExpanded (v : bool) (a : Attrs) : Attrs :=
  mkAttrs (_orientation a) (_singleStep a) (_pageStep a) (_padding a)
    (_minimum a) (_maximum a) (_value a) (_isPressed a) (_isEnter a) v
    (_pressedPos a) (_isForceHidden a) (isEnter a) (emitted a).

Definition set_pressedPos (v : QPoint) (a : Attrs) : Attrs :=
  mkAttrs (_orientation a) (_singleStep a) (_pageStep a) (_padding a)
    (_minimum a) (_maximum a) (_value a) (_isPressed a) (_isEnter a)
    (_isExpanded a) v (_isForceHidden a) (isEnter a) (emitted a).

Definition set_isForceHidden (v : bool) (a : Attrs) : Attrs :=
  mkAttrs (_orientation a) (_singleStep a) (_pageStep a) (_padding a)
    (_minimum a) (_maximum a) (_value a) (_isPressed a) (_isEnter a)
    (_isExpanded a) (_pressedPos a) v (isEnter a) (emitted a).

Definition set_isEnter_attr (v : bool) (a : Attrs) : Attrs :=
  mkAttrs (_orientation a) (_singleStep a) (_pageStep a) (_padding a)
    (_minimum a) (_maximum a) (_value a) (_isPressed a) (_isEnter a)
    (_isExpanded a) (_pressedPos a) (_isForceHidden a) (Some v) (emitted a).

Definition add_emitted (sig : Signal) (a : Attrs) : Attrs :=
  mkAttrs (_orientation a) (_singleStep a) (_pageStep a) (_padding a)
    (_minimum a) (_maximum a) (_value a) (_isPressed a) (_isEnter a)
    (_isExpanded a) (_pressedPos a) (_isForceHidden a) (isEnter a)
    (emitted a ++ [sig]).

(** A method: from the attributes and the Qt state to an outcome and the
    attributes and Qt state it leaves. *)
Definition Run (W A : Type) : Type := Attrs * W → Outcome A * (Attrs * W).

#[global] Instance Run_bind (W : Type) : MBind (Run W) := λ A B k m s,
  match m s with
  | (Returned a, s') => k a s'
  | (Raised e, s') => (Raised e, s')
  end.

#[global] Instance Run_ret (W : Type) : MRet (Run W) := λ A a s, (Returned a, s).

Section Methods.
Context `{QtSide W}.

(** Reading an attribute, assigning attributes, calling Qt. *)
Definition attr {A : Type} (f : Attrs → A) : Run W A :=
  λ s, (Returned (f s.1), s).

Definition assign (f : Attrs → Attrs) : Run W unit :=
  λ s, (Returned tt, (f s.1, s.2)).

Definition qt_read {A : Type} (f : W → A) : Run W A :=
  λ s, (Returned (f s.2), s).

Definition qt_call (f : W → W) : Run W unit :=
  λ s, (Returned tt, (s.1, f s.2)).

Definition raise {A : Type} (e : Exc) : Run W A :=
  λ s, (Raised e, s).

Definition emit (sig : Signal) : Run W unit := assign (add_emitted sig).

(** The range of a C [int]. *)
Definition in_int32 (z : Z) : bool :=
  bool_decide (-2147483648 ≤ z ≤ 2147483647).

(** [self.valueChanged.emit(value)].  The signal is declared
    [Signal(int)]: an argument outside the range of a C [int] is not
    emitted, the call raises [OverflowError]. *)
Definition emit_valueChanged (v : Z) : Run W unit :=
  if in_int32 v then emit (valueChanged v) else raise OverflowError.

(** [self.isEnter]: an [AttributeError] while the attribute is not set. *)
Definition read_isEnter : Run W bool :=
  λ s, match isEnter s.1 with
       | Some b => (Returned b, s)
       | None => (Raised (AttributeError "isEnter"), s)
       end.

(** [a / b] on integers. *)
Definition truediv (a b : Z) : Run W float :=
  if decide (b = 0) then raise ZeroDivisionError
  else mret (float_of_int a / float_of_int b)%float.

(** [int(f)]: truncation towards zero. *)
Definition int_of_float (f : float) : Run W Z :=
  match Prim2SF f with
  | S754_zero _ => mret 0
  | S754_infinity _ => raise OverflowError
  | S754_nan => raise (ValueError "cannot convert float NaN to integer")
  | S754_finite s m e =>
      let v := if (0 <=? e)%Z then (Z.pos m * 2 ^ e)%Z
               else (Z.pos m / 2 ^ (- e))%Z in
      mret (if s then (- v)%Z else v)
  end.

Definition value : Run W Z := attr _value.
Definition minimum : Run W Z := attr _minimum.
Definition maximum : Run W Z := attr _maximum.
Definition orientation : Run W Orientation := attr _orientation.
Definition pageStep : Run W Z := attr _pageStep.
Definition singleStep : Run W Z := attr _singleStep.
Definition isSliderDown : Run W bool := attr _isPressed.

Definition _grooveLength : Run W Z :=
  o ← orientation;
  padding ← attr _padding;
  match o with
  | Vertical => h ← qt_read height; mret (h - 2 * padding)
  | Horizontal => w ← qt_read width; mret (w - 2 * padding)
  end.

Definition _slideLength : Run W Z :=
  o ← orientation;
  match o with
  | Vertical =>
      g ← _grooveLength; h ← qt_read handle_height; mret (g - h)
  | Horizontal =>
      g ← _grooveLength; w ← qt_read handle_width; mret (g - w)
  end.

Definition _isSlideResion (pos : QPoint) : Run W bool :=
  o ← orientation;
  padding ← attr _padding;
  match o with
  | Vertical =>
      if bool_decide (padding ≤ point_y pos) then
        h ← qt_read height;
        mret (bool_decide (point_y pos ≤ h - padding))
      else mret false
  | Horizontal =>
      if bool_decide (padding ≤ point_x pos) then
        w ← qt_read width;
        mret (bool_decide (point_x pos ≤ w - padding))
      else mret false
  end.

Definition _adjustHandleSize : Run W unit :=
  o ← orientation;
  match o with
  | Vertical =>
      hi ← maximum; lo ← minimum; ph ← qt_read parent_height;
      let total := hi - lo + ph in
      g ← _grooveLength;
      ph' ← qt_read parent_height;
      q ← truediv (g * ph') (Z.max total 1);
      s ← int_of_float q;
      qt_call (handle_setFixedHeight (Z.max 30 s))
  | Horizontal =>
      hi ← maximum; lo ← minimum; pw ← qt_read parent_width;
      let total := hi - lo + pw in
      g ← _grooveLength;
      pw' ← qt_read parent_width;
      q ← truediv (g * pw') (Z.max total 1);
      s ← int_of_float q;
      qt_call (handle_setFixedWidth (Z.max 30 s))
  end.

Definition _adjustHandlePos : Run W unit :=
  hi ← maximum; lo ← minimum;
  let total := Z.max (hi - lo) 1 in
  v ← value;
  q ← truediv v total;
  l ← _slideLength;
  delta ← int_of_float (q * float_of_int l)%float;
  o ← orientation;
  padding ← attr _padding;
  match o with
  | Vertical =>
      w ← qt_read width; hw ← qt_read handle_width;
      let x := w - hw - 3 in
      qt_call (handle_move x (padding + delta))
  | Horizontal =>
      h ← qt_read height; hh ← qt_read handle_height;
      let y := h - hh - 3 in
      qt_call (handle_move (padding + delta) y)
  end.

(** The setter of the property [val]; the argument [value] of the
    source is [requested] here. *)
Definition val_setter (requested : Z) : Run W unit :=
  cur ← value;
  if decide (requested = cur) then mret tt
  else
    lo ← minimum; hi ← maximum;
    let clamped := Z.max lo (Z.min requested hi) in
    assign (set_value clamped);;
    emit_valueChanged clamped;;
    _adjustHandlePos.

Definition setValue (requested : Z) : Run W unit :=
  val_setter requested;;
  _adjustHandleSize;;
  _adjustHandlePos.

Definition _onPageUp : Run W unit :=
  v ← value; step ← pageStep; setValue (v - step).

Definition _onPageDown : Run W unit :=
  v ← value; step ← pageStep; setValue (v + step).

Definition _onValueChanged (requested : Z) : Run W unit :=
  val_setter requested.

Definition setMinimum (min : Z) : Run W unit :=
  cur ← minimum;
  if decide (min = cur) then mret tt
  else
    assign (set_minimum min);;
    hi ← maximum;
    emit (rangeChanged (min, hi)).

Definition setMaximum (max : Z) : Run W unit :=
  cur ← maximum;
  if decide (max = cur) then mret tt
  else
    assign (set_maximum max);;
    lo ← minimum;
    emit (rangeChanged (lo, max)).

Definition setRange (min max : Z) : Run W unit :=
  lo ← minimum; hi ← maximum;
  if bool_decide (min > max) || (bool_decide (min = lo) && bool_decide (max = hi))
  then mret tt
  else
    setMinimum min;;
    setMaximum max;;
    _adjustHandleSize;;
    _adjustHandlePos;;
    emit (rangeChanged (min, max)).

Definition setPageStep (step : Z) : Run W unit :=
  if bool_decide (step >= 1) then assign (set_pageStep step) else mret tt.

Definition setSingleStep (step : Z) : Run W unit :=
  if bool_decide (step >= 1) then assign (set_singleStep step) else mret tt.

Definition setSliderDown (isDown : bool) : Run W unit :=
  assign (set_isPressed true);;
  if isDown then emit sliderPressed else emit sliderReleased.

Definition expand : Run W unit :=
  expanded ← attr _isExpanded;
  stop ← ((if (expanded : bool) then mret true
           else entered ← read_isEnter; mret (negb entered)) : Run W bool);
  if (stop : bool) then mret tt
  else
    assign (set_isExpanded true);;
    qt_call groove_fadeIn.

Definition collapse : Run W unit :=
  expanded ← attr _isExpanded;
  stop ← ((if negb (expanded : bool) then mret true else read_isEnter) : Run W bool);
  if (stop : bool) then mret tt
  else
    assign (set_isExpanded false);;
    qt_call groove_fadeOut.

Definition enterEvent : Run W unit :=
  enabled ← qt_read isEnabled;
  if (enabled : bool) then
    assign (set_isEnter_attr true);;
    qt_call timer_stop;;
    qt_call (timer_singleShot 200 expand_ref)
  else mret tt.

Definition leaveEvent : Run W unit :=
  enabled ← qt_read isEnabled;
  if (enabled : bool) then
    assign (set_isEnter_attr false);;
    qt_call timer_stop;;
    qt_call (timer_singleShot 200 collapse_ref)
  else mret tt.

Definition showEvent : Run W unit :=
  _adjustHandleSize;; _adjustHandlePos.

Definition resizeEvent : Run W unit :=
  qt_call groove_resize_to_self;;
  _adjustHandleSize;; _adjustHandlePos.

Definition mousePressEvent (pos : QPoint) : Run W unit :=
  qt_call (super_mousePressEvent pos);;
  assign (set_isPressed true);;
  assign (set_pressedPos pos);;
  on_handle ← qt_read (childAt_is_handle pos);
  skip ← ((if (on_handle : bool) then mret true
           else inside ← _isSlideResion pos; mret (negb inside)) : Run W bool);
  if (skip : bool) then mret tt
  else
    o ← orientation;
    padding ← attr _padding;
    offset ← (match o with
              | Vertical =>
                  bottom ← qt_read handle_bottom;
                  if bool_decide (point_y pos > bottom) then
                    hh ← qt_read handle_height;
                    mret (point_y pos - hh - padding)
                  else mret (point_y pos - padding)
              | Horizontal =>
                  right ← qt_read handle_right;
                  if bool_decide (point_x pos > right) then
                    hw ← qt_read handle_width;
                    mret (point_x pos - hw - padding)
                  else mret (point_x pos - padding)
              end : Run W Z);
    l ← _slideLength;
    q ← truediv offset (Z.max l 1);
    hi ← maximum;
    target ← int_of_float (q * float_of_int hi)%float;
    setValue target;;
    emit sliderPressed.

Definition mouseReleaseEvent : Run W unit :=
  qt_call super_mouseReleaseEvent;;
  assign (set_isPressed false);;
  emit sliderReleased.

Definition mouseMoveEvent (pos : QPoint) : Run W unit :=
  o ← orientation;
  pressed ← attr _pressedPos;
  let dv := match o with
            | Vertical => point_y pos - point_y pressed
            | Horizontal => point_x pos - point_x pressed
            end in
  l ← _slideLength;
  q ← truediv dv (Z.max l 1);
  hi ← maximum; lo ← minimum;
  dv ← int_of_float (q * float_of_int (hi - lo))%float;
  v ← value;
  setValue (v + dv);;
  assign (set_pressedPos pos);;
  emit sliderMoved.

Definition _onOpacityAniValueChanged : Run W unit :=
  opacity ← qt_read groove_opacity;
  o ← orientation;
  size ← int_of_float (3 + opacity * 3)%float;
  (match o with
   | Vertical => qt_call (handle_setFixedWidth size)
   | Horizontal => qt_call (handle_setFixedHeight size)
   end : Run W unit);;
  _adjustHandlePos.

Definition setForceHidden (isHidden : bool) : Run W unit :=
  assign (set_isForceHidden isHidden);;
  hi ← maximum;
  qt_call (setVisible (bool_decide (hi > 0) && negb isHidden)).

(** The attributes [__init__] assigns. *)
Definition __init__ (orient : Orientation) : Attrs :=
  {| _orientation := orient;
     _singleStep := 1;
     _pageStep := 50;
     _padding := 14;
     _minimum := 0;
     _maximum := 0;
     _value := 0;
     _isPressed := false;
     _isEnter := false;
     _isExpanded := false;
     _pressedPos := mkQPoint 0 0;
     _isForceHidden := false;
     isEnter := None;
     emitted := [] |}.

(** What can happen to a scroll bar: the calls of its public methods and
    slots, and the events Qt delivers. *)
Inductive Op :=
  | CallSetValue (value : Z)
  | CallSetMinimum (min : Z)
  | CallSetMaximum (max : Z)
  | CallSetRange (min max : Z)
  | CallSetPageStep (step : Z)
  | CallSetSingleStep (step : Z)
  | CallSetSliderDown (isDown : bool)
  | CallSetForceHidden (isHidden : bool)
  | CallExpand
  | CallCollapse
  | SlotPageUp
  | SlotPageDown
  | SlotValueChanged (value : Z)
  | SlotOpacityAniValueChanged
  | EventEnter
  | EventLeave
  | EventShow
  | EventResize
  | EventMousePress (pos : QPoint)
  | EventMouseRelease
  | EventMouseMove (pos : QPoint).

Definition perform (op : Op) : Run W unit :=
  match op with
  | CallSetValue v => setValue v
  | CallSetMinimum v => setMinimum v
  | CallSetMaximum v => setMaximum v
  | CallSetRange lo hi => setRange lo hi
  | CallSetPageStep v => setPageStep v
  | CallSetSingleStep v => setSingleStep v
  | CallSetSliderDown b => setSliderDown b
  | CallSetForceHidden b => setForceHidden b
  | CallExpand => expand
  | CallCollapse => collapse
  | SlotPageUp => _onPageUp
  | SlotPageDown => _onPageDown
  | SlotValueChanged v => _onValueChanged v
  | SlotOpacityAniValueChanged => _onOpacityAniValueChanged
  | EventEnter => enterEvent
  | EventLeave => leaveEvent
  | EventShow => showEvent
  | EventResize => resizeEvent
  | EventMousePress pos => mousePressEvent pos
  | EventMouseRelease => mouseReleaseEvent
  | EventMouseMove pos => mouseMoveEvent pos
  end.

(** A history of calls and events; an exception ends the call that
    raised it and the next one runs on the state it left. *)
Definition perform_all (ops : list Op) (s : Attrs * W) : Attrs * W :=
  fold_left (λ s op, (perform op s).2) ops s.

(** A method keeps a property of the attributes: whatever it returns or
    raises, the attributes it leaves satisfy [P] when those it found
    did. *)
Definition preserves {A : Type} (P : Attrs → Prop) (m : Run W A) : Prop :=
  ∀ s, P s.1 → P (m s).2.1.

(** The operations that assign the range. *)
Definition sets_range (op : Op) : bool :=
  match op with
  | CallSetMinimum _ | CallSetMaximum _ | CallSetRange _ _ => true
  | _ => false
  end.
End Methods.

(** A Qt side for the examples: the sizes of bar, parent and handle. *)
Record Sizes := mkSizes {
  bar_w : Z; bar_h : Z;
  par_w : Z; par_h : Z;
  han_w : Z; han_h : Z; han_x : Z; han_y : Z
}.

#[global] Instance SizesSide : QtSide Sizes := {|
  width := bar_w;
  height := bar_h;
  parent_width := par_w;
  parent_height := par_h;
  handle_width := han_w;
  handle_height := han_h;
  handle_right := λ w, (han_x w + han_w w - 1)%Z;
  handle_bottom := λ w, (han_y w + han_h w - 1)%Z;
  handle_setFixedWidth := λ v w,
    mkSizes (bar_w w) (bar_h w) (par_w w) (par_h w) v (han_h w) (han_x w) (han_y w);
  handle_setFixedHeight := λ v w,
    mkSizes (bar_w w) (bar_h w) (par_w w) (par_h w) (han_w w) v (han_x w) (han_y w);
  handle_move := λ x y w,
    mkSizes (bar_w w) (bar_h w) (par_w w) (par_h w) (han_w w) (han_h w) x y;
  groove_resize_to_self := λ w, w;
  groove_fadeIn := λ w, w;
  groove_fadeOut := λ w, w;
  groove_opacity := λ _, 0%float;
  isEnabled := λ _, true;
  timer_stop := λ w, w;
  timer_singleShot := λ _ _ w, w;
  setVisible := λ _ w, w;
  childAt_is_handle := λ pos w,
    bool_decide (han_x w ≤ point_x pos < han_x w + han_w w)%Z
    && bool_decide (han_y w ≤ point_y pos < han_y w + han_h w)%Z;
  super_mousePressEvent := λ _ w, w;
  super_mouseReleaseEvent := λ w, w
|}.

Definition example_sizes : Sizes := mkSizes 12 400 800 400 3 30 6 14.

(** A fresh vertical bar, and the same bar after [setRange(0, 1000)]. *)
Definition example_bar : Attrs * Sizes := (__init__ Vertical, example_sizes).

Definition example_bar_ranged : Attrs * Sizes :=
  perform_all [CallSetRange 0 1000] example_bar.

Definition example_bar_at (v : Z) : Attrs * Sizes :=
  perform_all [CallSetRange 0 1000; CallSetValue v] example_bar.

(** A bar whose range leaves the range of a C [int]. *)
Definition example_bar_wide : Attrs * Sizes :=
  perform_all [CallSetRange 0 3000000000] example_bar.
End FluentScrollBar.

(** ** Comparisons of binary64 values *)

Lemma SFcompare_antisym (a b : spec_float) (c : comparison) :
  SFcompare a b = Some c → SFcompare b a = Some (CompOpp c).
Proof.
  destruct a as [sa|sa| |sa ma ea], b as [sb|sb| |sb mb eb]; simpl;
    try discriminate; intros [= <-];
    try (destruct sa; reflexivity); try (destruct sb; reflexivity);
    try (destruct sa, sb; reflexivity).
  f_equal. rewrite (Z.compare_antisym ea eb).
  destruct sa, sb; simpl; try reflexivity;
    destruct (ea ?= eb)%Z; simpl; try reflexivity;
    try f_equal; symmetry; apply (Pos.compare_cont_antisym ma mb Eq).
Qed.

(** [close <= open] excludes [close > open]. *)
Lemma leb_not_gt (a b : float) : PrimFloat.leb a b = true → gt a b = false.
Proof.
  unfold gt. rewrite FloatAxioms.leb_spec, FloatAxioms.ltb_spec. unfold SFleb, SFltb.
  destruct (SFcompare (Prim2SF a) (Prim2SF b)) as [c|] eqn:E; [|discriminate].
  rewrite (SFcompare_antisym _ _ _ E). destruct c; simpl; done.
Qed.

(** [close == open] excludes [close > open]. *)
Lemma eqb_not_gt (a b : float) : PrimFloat.eqb a b = true → gt a b = false.
Proof.
  unfold gt. rewrite FloatAxioms.eqb_spec, FloatAxioms.ltb_spec. unfold SFeqb, SFltb.
  destruct (SFcompare (Prim2SF a) (Prim2SF b)) as [c|] eqn:E; [|discriminate].
  rewrite (SFcompare_antisym _ _ _ E). destruct c; simpl; done.
Qed.

(** ** Lists, loops and results *)

Lemma lookup_bind_pairs {A B : Type} (f g : A → B) (l : list A) (i : nat) :
  (l ≫= λ x, [f x; g x]) !! (2 * i) = f <$> l !! i
  ∧ (l ≫= λ x, [f x; g x]) !! (2 * i + 1) = g <$> l !! i.
Proof.
  revert i. induction l as [|a l IH]; intros [|i]; try done.
  replace (2 * S i) with (S (S (2 * i))) by lia.
  replace (S (S (2 * i)) + 1) with (S (S (2 * i + 1))) by lia.
  exact (IH i).
Qed.

Lemma getitem_middle {X : Type} (pre : list X) (a : X) (rest : list X) :
  getitem (pre ++ a :: rest) (length pre) = Ok a.
Proof. unfold getitem. by rewrite list_lookup_middle. Qed.

Lemma getitem_end {X : Type} (a : list X) : getitem a (length a) = Raise IndexError.
Proof. unfold getitem. by rewrite lookup_ge_None_2. Qed.

(** A loop that runs to its end ran its body without an exception at
    every element. *)
Lemma for_each_Ok_inv {S X : Type} (body : S → X → Result S) (l : list X)
    (s s' : S) (x : X) :
  for_each body s l = Ok s' → x ∈ l → ∃ s1 s2, body s1 x = Ok s2.
Proof.
  revert s. induction l as [|a l IH]; intros s Hrun Hin; [by inversion Hin|].
  simpl in Hrun. destruct (body s a) as [s1|e] eqn:E; [|done].
  apply elem_of_cons in Hin as [->|Hin]; [by eauto|].
  exact (IH _ Hrun Hin).
Qed.

(** A loop whose body never raises is a left fold. *)
Lemma for_each_total {S X : Type} (body : S → X → Result S) (step : S → X → S)
    (l : list X) (s : S) :
  (∀ s x, x ∈ l → body s x = Ok (step s x)) →
  for_each body s l = Ok (fold_left step l s).
Proof.
  revert s. induction l as [|a l IH]; intros s Hbody; [done|].
  simpl. rewrite Hbody by left. simpl. apply IH.
  intros s1 x Hx. apply Hbody. by right.
Qed.

(** A loop that computes a value per element and feeds it to a step that
    cannot raise: when the values can all be computed, the loop is the
    fold of the step over them. *)
Lemma for_each_mapM {S X V : Type} (body : S → X → Result S)
    (value : X → Result V) (step : S → V → S) (l : list X) (vs : list V)
    (s : S) :
  (∀ s x, body s x = v ← value x; Ok (step s v)) →
  mapM value l = Ok vs →
  for_each body s l = Ok (fold_left step vs s).
Proof.
  intros Hbody. revert vs s. induction l as [|a l IH]; intros vs s Hvs.
  - by injection Hvs as <-.
  - simpl in *. rewrite Hbody.
    destruct (value a) as [v|e]; [|done]. simpl in *.
    destruct (mapM value l) as [vs'|e]; [|done]. simpl in *.
    injection Hvs as <-. simpl. by apply IH.
Qed.

(** ** Painter state *)

Section PainterFacts.
Context `{QTransformOps QTransform}.
Implicit Type p : QPainter QTransform.

Lemma play_app (pic1 pic2 : QPicture) p :
  Painter.play (pic1 ++ pic2) p = Painter.play pic2 (Painter.play pic1 p).
Proof. apply fold_left_app. Qed.

(** Replaying a picture touches neither the transform nor the stack of
    saved states, and only adds to the surface. *)
Lemma play_frame (pic : QPicture) p :
  transform (Painter.play pic p) = transform p
  ∧ saved (Painter.play pic p) = saved p
  ∧ ∃ new, surface (Painter.play pic p) = surface p ++ new.
Proof.
  revert p. induction pic as [|c pic IH]; intros p.
  - repeat split. exists []. by rewrite app_nil_r.
  - destruct (IH (Painter.exec p c)) as (Ht & Hs & new & Hn).
    change (Painter.play (c :: pic) p) with (Painter.play pic (Painter.exec p c)).
    rewrite Ht, Hs, Hn. destruct c; simpl; repeat split; eauto.
    all: rewrite <- app_assoc; eauto.
Qed.

(** [drawPicture] leaves pen, brush, transform and saved states as they
    were. *)
Lemma drawPicture_eq (x y : float) (pic : QPicture) p :
  Painter.drawPicture x y pic p =
  mkQPainter (pen p) (brush p) (transform p) (saved p)
    (surface (Painter.play pic (Painter.translate x y (Painter.save p)))).
Proof.
  unfold Painter.drawPicture, Painter.restore.
  destruct (play_frame pic (Painter.translate x y (Painter.save p)))
    as (_ & -> & _).
  reflexivity.
Qed.

Lemma drawPicture_surface (x y : float) (pic : QPicture) p :
  surface (Painter.drawPicture x y pic p) =
  surface p ++ painted p (Painter.drawPicture x y pic p).
Proof.
  unfold painted. rewrite drawPicture_eq. simpl.
  destruct (play_frame pic (Painter.translate x y (Painter.save p)))
    as (_ & _ & new & ->).
  simpl. by rewrite drop_app_length.
Qed.

Lemma painted_app p p' (new : list (Drawn QTransform)) :
  surface p' = surface p ++ new → painted p p' = new.
Proof. unfold painted. intros ->. apply drop_app_length. Qed.
End PainterFacts.

(** ** CandlestickPricesItem *)

Lemma draw_candle_app (style : Style) (pic : QPicture) (row : PriceRow) :
  CandlestickPricesItem.draw_candle style pic row =
  pic ++ CandlestickPricesItem.draw_candle style [] row.
Proof.
  unfold CandlestickPricesItem.draw_candle, Recorder.drawRect,
    Recorder.setPen, Recorder.setBrush.
  destruct (gt _ _); simpl; by rewrite <- !app_assoc.
Qed.

Lemma fold_draw_candle (style : Style) (rows : list PriceRow) (pic : QPicture) :
  fold_left (CandlestickPricesItem.draw_candle style) rows pic =
  pic ++ (rows ≫= CandlestickPricesItem.draw_candle style []).
Proof.
  revert pic. induction rows as [|row rows IH]; intros pic; simpl.
  - by rewrite app_nil_r.
  - rewrite IH, draw_candle_app. by rewrite <- app_assoc.
Qed.

Section PricesPainting.
Context `{QTransformOps QTransform}.
Implicit Type p : QPainter QTransform.

(** Replaying the bar of one ordinal: two rectangles, both in the colour
    chosen for the row, whatever pen and brush were current before. *)
Lemma play_candle (style : Style) (row : PriceRow) p :
  Painter.play (CandlestickPricesItem.draw_candle style [] row) p =
  mkQPainter (mkPen (candle_color style row) None)
    (mkBrush (candle_color style row)) (transform p) (saved p)
    (surface p ++ candle_drawn style (transform p) row).
Proof.
  unfold CandlestickPricesItem.draw_candle, candle_drawn, candle_color,
    candle_body_rect, candle_shadow_rect.
  destruct (gt _ _); cbn;
    unfold Painter.drawRect, Painter.draw, Painter.setPen, Painter.setBrush;
    simpl; by rewrite <- app_assoc.
Qed.

Lemma play_candles (style : Style) (rows : list PriceRow) p :
  surface (Painter.play (rows ≫= CandlestickPricesItem.draw_candle style []) p) =
  surface p ++ (rows ≫= candle_drawn style (transform p)).
Proof.
  revert p. induction rows as [|row rows IH]; intros p.
  - simpl. by rewrite app_nil_r.
  - rewrite !bind_cons, play_app, IH, play_candle. simpl.
    by rewrite <- app_assoc.
Qed.

(** What painting a price item adds to the surface: for each row, in
    order, its body and its shadow. *)
Lemma paint_candles (data : PricesDataFrame) (style : Style) p :
  painted p (CandlestickPricesItem.paint
               (CandlestickPricesItem.__init__ data style) p) =
  prices_rows data ≫=
    candle_drawn style (transform_translate 0 0 (transform p)).
Proof.
  apply painted_app. unfold CandlestickPricesItem.paint.
  rewrite drawPicture_eq. simpl.
  rewrite fold_draw_candle. simpl. by rewrite play_candles.
Qed.
End PricesPainting.

(** C1. For every OHLC series and every ordinal of it, the body that
    [CandlestickPricesItem] draws for the ordinal (the first of the two
    rectangles of that ordinal, of half-width [bar_width] around it) is
    filled and outlined in the style's positive colour and spans
    [open .. close] when [close > open]; it is in the negative colour and
    spans [close .. open] when [close <= open], and in particular when
    [close == open]. *)
Theorem candle_body_color `{QTransformOps QTransform}
    (data : PricesDataFrame) (style : Style) (p : QPainter QTransform)
    (i : nat) (row : PriceRow) :
  prices_rows data !! i = Some row →
  ∃ body,
    painted p (CandlestickPricesItem.paint
                 (CandlestickPricesItem.__init__ data style) p) !! (2 * i)
      = Some body
    ∧ (gt (row_close row) (row_open row) = true →
         drawn_shape body =
           Rect (mkQRectF (float_of_int (row_t row) - bar_width style)
                   (row_open row) (bar_width style * 2)
                   (row_close row - row_open row))
         ∧ drawn_brush body = mkBrush (positive_color style)
         ∧ drawn_pen body = mkPen (positive_color style) None)
    ∧ (PrimFloat.leb (row_close row) (row_open row) = true →
         drawn_shape body =
           Rect (mkQRectF (float_of_int (row_t row) - bar_width style)
                   (row_close row) (bar_width style * 2)
                   (row_open row - row_close row))
         ∧ drawn_brush body = mkBrush (negative_color style)
         ∧ drawn_pen body = mkPen (negative_color style) None)
    ∧ (PrimFloat.eqb (row_close row) (row_open row) = true →
         drawn_brush body = mkBrush (negative_color style)
         ∧ drawn_pen body = mkPen (negative_color style) None).
Proof.
  intros Hrow. rewrite paint_candles.
  destruct (lookup_bind_pairs
    (λ row, mkDrawn (Rect (candle_body_rect style row))
              (mkPen (candle_color style row) None)
              (mkBrush (candle_color style row))
              (transform_translate 0 0 (transform p)))
    (λ row, mkDrawn (Rect (candle_shadow_rect style row))
              (mkPen (candle_color style row) None)
              (mkBrush (candle_color style row))
              (transform_translate 0 0 (transform p)))
    (prices_rows data) i) as [Hbody _].
  eexists. split.
  - unfold candle_drawn. rewrite Hbody, Hrow. reflexivity.
  - unfold candle_body_rect, candle_color. simpl. split; [|split].
    + by intros ->.
    + intros Hle. by rewrite (leb_not_gt _ _ Hle).
    + intros Heq. by rewrite (eqb_not_gt _ _ Heq).
Qed.

Lemma candle_body_color_witness :
  prices_rows example_prices !! 1 =
    Some {| row_t := 1; row_open := 2; row_close := 1;
            row_high := 2.2; row_low := 0.9 |}
  ∧ ∃ body,
      painted example_painter
        (CandlestickPricesItem.paint
           (CandlestickPricesItem.__init__ example_prices example_style)
           example_painter) !! 2 = Some body
      ∧ drawn_brush body = mkBrush "g".
Proof.
  split; [reflexivity|].
  destruct (candle_body_color example_prices example_style example_painter 1
              {| row_t := 1; row_open := 2; row_close := 1;
                 row_high := 2.2; row_low := 0.9 |})
    as (body & Hbody & _ & Hdown & _); [reflexivity|].
  exists body. split; [exact Hbody|]. apply Hdown. reflexivity.
Defined.

(** C7. For every OHLC series and every ordinal of it, the shadow (the
    second rectangle of the ordinal) has its left edge at the ordinal less
    half the style's shadow width and is one shadow width wide, has its
    top at [low] and the height [high - low], and is drawn with the pen
    and brush of the body of the same ordinal, whichever way the bar
    points. *)
Theorem candle_shadow_geometry `{QTransformOps QTransform}
    (data : PricesDataFrame) (style : Style) (p : QPainter QTransform)
    (i : nat) (row : PriceRow) :
  prices_rows data !! i = Some row →
  ∃ body shadow,
    painted p (CandlestickPricesItem.paint
                 (CandlestickPricesItem.__init__ data style) p) !! (2 * i)
      = Some body
    ∧ painted p (CandlestickPricesItem.paint
                   (CandlestickPricesItem.__init__ data style) p) !! (2 * i + 1)
      = Some shadow
    ∧ drawn_shape shadow =
        Rect (mkQRectF (float_of_int (row_t row) - shadow_width style / 2)
                (row_low row) (shadow_width style)
                (row_high row - row_low row))
    ∧ drawn_brush shadow = drawn_brush body
    ∧ drawn_pen shadow = drawn_pen body.
Proof.
  intros Hrow. rewrite paint_candles.
  destruct (lookup_bind_pairs
    (λ row, mkDrawn (Rect (candle_body_rect style row))
              (mkPen (candle_color style row) None)
              (mkBrush (candle_color style row))
              (transform_translate 0 0 (transform p)))
    (λ row, mkDrawn (Rect (candle_shadow_rect style row))
              (mkPen (candle_color style row) None)
              (mkBrush (candle_color style row))
              (transform_translate 0 0 (transform p)))
    (prices_rows data) i) as [Hbody Hshadow].
  unfold candle_drawn. rewrite Hbody, Hshadow, Hrow. simpl.
  eexists _, _. repeat split.
Qed.

Lemma candle_shadow_geometry_witness :
  prices_rows example_prices !! 0 =
    Some {| row_t := 0; row_open := 1; row_close := 2;
            row_high := 2.5; row_low := 0.8 |}
  ∧ ∃ shadow,
      painted example_painter
        (CandlestickPricesItem.paint
           (CandlestickPricesItem.__init__ example_prices example_style)
           example_painter) !! 1 = Some shadow
      ∧ drawn_shape shadow = Rect (mkQRectF (-0.25) 0.8 0.5 1.7)
      ∧ drawn_brush shadow = mkBrush "r".
Proof.
  split; [reflexivity|].
  destruct (candle_shadow_geometry example_prices example_style
              example_painter 0
              {| row_t := 0; row_open := 1; row_close := 2;
                 row_high := 2.5; row_low := 0.8 |})
    as (body & shadow & Hbody & Hshadow & Hrect & Hbrush & _); [reflexivity|].
  exists shadow. split; [exact Hshadow|]. split; [exact Hrect|].
  rewrite Hbrush. injection Hbody as <-. reflexivity.
Defined.

(** The colour of a bar is a function of its open and close alone. *)
Lemma candle_color_open_close (style : Style) (r1 r2 : PriceRow) :
  row_open r1 = row_open r2 → row_close r1 = row_close r2 →
  candle_color style r1 = candle_color style r2.
Proof. unfold candle_color. by intros -> ->. Qed.

(** C8. Two OHLC series that have the same open and the same close at
    every ordinal, whatever their highs and lows (and their ordinals),
    are drawn with the same pens and brushes, primitive by primitive: the
    colour of body and shadow depends on open and close only. *)
Theorem candle_color_two_runs `{QTransformOps QTransform}
    (data1 data2 : PricesDataFrame) (style : Style) (p : QPainter QTransform) :
  Forall2 (λ r1 r2, row_open r1 = row_open r2 ∧ row_close r1 = row_close r2)
    (prices_rows data1) (prices_rows data2) →
  drawn_colors <$> painted p (CandlestickPricesItem.paint
                                (CandlestickPricesItem.__init__ data1 style) p)
  = drawn_colors <$> painted p (CandlestickPricesItem.paint
                                  (CandlestickPricesItem.__init__ data2 style) p).
Proof.
  intros Hagree. rewrite !paint_candles.
  induction Hagree as [|r1 r2 rows1 rows2 [Hopen Hclose] _ IH]; [done|].
  rewrite !bind_cons, !fmap_app, IH. f_equal.
  unfold candle_drawn, drawn_colors. simpl.
  by rewrite (candle_color_open_close style r1 r2 Hopen Hclose).
Qed.

Lemma candle_color_two_runs_witness :
  Forall2 (λ r1 r2, row_open r1 = row_open r2 ∧ row_close r1 = row_close r2)
    (prices_rows example_prices)
    [ {| row_t := 0; row_open := 1; row_close := 2; row_high := 9; row_low := 0 |};
      {| row_t := 1; row_open := 2; row_close := 1; row_high := 2; row_low := 1 |};
      {| row_t := 2; row_open := 1; row_close := 1; row_high := 1; row_low := 1 |} ]
  ∧ drawn_brush <$> painted example_painter
      (CandlestickPricesItem.paint
         (CandlestickPricesItem.__init__
            {| prices_rows := [
                 {| row_t := 0; row_open := 1; row_close := 2; row_high := 9; row_low := 0 |};
                 {| row_t := 1; row_open := 2; row_close := 1; row_high := 2; row_low := 1 |};
                 {| row_t := 2; row_open := 1; row_close := 1; row_high := 1; row_low := 1 |} ] |}
            example_style) example_painter)
    = mkBrush <$> ["r"; "r"; "g"; "g"; "g"; "g"].
Proof.
  assert (Hagree : Forall2
    (λ r1 r2, row_open r1 = row_open r2 ∧ row_close r1 = row_close r2)
    (prices_rows example_prices)
    [ {| row_t := 0; row_open := 1; row_close := 2; row_high := 9; row_low := 0 |};
      {| row_t := 1; row_open := 2; row_close := 1; row_high := 2; row_low := 1 |};
      {| row_t := 2; row_open := 1; row_close := 1; row_high := 1; row_low := 1 |} ])
    by (repeat constructor).
  split; [exact Hagree|].
  pose proof (candle_color_two_runs example_prices
                {| prices_rows := _ |} example_style example_painter Hagree)
    as Hsame.
  apply (f_equal (fmap snd)) in Hsame.
  rewrite <- !list_fmap_compose in Hsame.
  etrans; [symmetry; exact Hsame|]. reflexivity.
Defined.

(** Projecting one field of every row: the comprehension
    [[data[index] for data in self.data]] for the four price fields. *)
Lemma mapM_price_field (rows : list PriceRow) (index : nat)
    (field : PriceRow → float) :
  (∀ data, PriceRow_getitem data index = Ok (PyFloat (field data))) →
  mapM (λ data, PriceRow_getitem data index) rows =
  Ok ((λ data, PyFloat (field data)) <$> rows).
Proof.
  intros Hfield. induction rows as [|row rows IH]; [done|].
  simpl. rewrite Hfield, IH. reflexivity.
Qed.

Lemma get_feature_value_field (self : CandlestickPricesItem.t) (key : string) :
  key ∈ ["open"; "close"; "high"; "low"] →
  ∃ field,
    field ∈ [("open", row_open); ("close", row_close);
             ("high", row_high); ("low", row_low)]
    ∧ field.1 = key
    ∧ CandlestickPricesItem.get_feature_value self (Some key) =
      Ok ((λ data, PyFloat (field.2 data)) <$>
            prices_rows (CandlestickPricesItem.data self)).
Proof.
  intros Hkey. unfold CandlestickPricesItem.get_feature_value.
  rewrite bool_decide_eq_false_2 by (intros Hnot; by apply Hnot).
  repeat (apply elem_of_cons in Hkey as [->|Hkey]); [..|by inversion Hkey].
  - exists ("open", row_open). split; [set_solver|]. split; [done|].
    by apply mapM_price_field.
  - exists ("close", row_close). split; [set_solver|]. split; [done|].
    by apply mapM_price_field.
  - exists ("high", row_high). split; [set_solver|]. split; [done|].
    by apply mapM_price_field.
  - exists ("low", row_low). split; [set_solver|]. split; [done|].
    by apply mapM_price_field.
Qed.

Lemma get_feature_value_close_eq (self : CandlestickPricesItem.t) :
  CandlestickPricesItem.get_feature_value self (Some "close") =
  Ok ((λ row, PyFloat (row_close row)) <$>
        prices_rows (CandlestickPricesItem.data self)).
Proof. exact (mapM_price_field _ 2 row_close (λ _, eq_refl)). Qed.

(** C5. For every OHLC series of N ordinals, [get_feature_value("close")]
    returns a sequence of exactly N values whose i-th element is the close
    of the i-th row of the wrapped series. *)
Theorem get_feature_value_close (data : PricesDataFrame) (style : Style) :
  ∃ values,
    CandlestickPricesItem.get_feature_value
      (CandlestickPricesItem.__init__ data style) (Some "close") = Ok values
    ∧ length values = length (prices_rows data)
    ∧ ∀ i, i < length (prices_rows data) →
        ∃ row, prices_rows data !! i = Some row
               ∧ values !! i = Some (PyFloat (row_close row)).
Proof.
  exists ((λ row, PyFloat (row_close row)) <$> prices_rows data).
  split; [|split].
  - apply get_feature_value_close_eq.
  - apply length_fmap.
  - intros i Hi. destruct (lookup_lt_is_Some_2 _ _ Hi) as [row Hrow].
    exists row. split; [done|]. by rewrite list_lookup_fmap, Hrow.
Qed.

(** C4. For every OHLC series, [get_feature_value(key)] raises the
    [ValueError] of an invalid feature key exactly when [key] is none of
    "open", "close", "high", "low", and returns a sequence for each of the
    four; called without a key it does what it does for "close", and
    succeeds. *)
Theorem get_feature_value_key (data : PricesDataFrame) (style : Style)
    (key : string) :
  ((∃ e, CandlestickPricesItem.get_feature_value
           (CandlestickPricesItem.__init__ data style) (Some key) = Raise e)
   ↔ key ∉ ["open"; "close"; "high"; "low"])
  ∧ (key ∉ ["open"; "close"; "high"; "low"] →
     CandlestickPricesItem.get_feature_value
       (CandlestickPricesItem.__init__ data style) (Some key) =
     Raise (ValueError "value_key must be one of 'open','close','high','low'"))
  ∧ (key ∈ ["open"; "close"; "high"; "low"] →
     ∃ values,
       CandlestickPricesItem.get_feature_value
         (CandlestickPricesItem.__init__ data style) (Some key) = Ok values)
  ∧ CandlestickPricesItem.get_feature_value
      (CandlestickPricesItem.__init__ data style) None =
    CandlestickPricesItem.get_feature_value
      (CandlestickPricesItem.__init__ data style) (Some "close")
  ∧ ∃ values,
      CandlestickPricesItem.get_feature_value
        (CandlestickPricesItem.__init__ data style) None = Ok values.
Proof.
  assert (Hbad : key ∉ ["open"; "close"; "high"; "low"] →
     CandlestickPricesItem.get_feature_value
       (CandlestickPricesItem.__init__ data style) (Some key) =
     Raise (ValueError "value_key must be one of 'open','close','high','low'")).
  { intros Hkey. unfold CandlestickPricesItem.get_feature_value. simpl.
    by rewrite bool_decide_eq_true_2. }
  split; [|split; [exact Hbad|split; [|split; [reflexivity|]]]].
  - split; [|by eauto].
    intros [e He] Hkey.
    destruct (get_feature_value_field
                (CandlestickPricesItem.__init__ data style) key Hkey)
      as (field & _ & _ & Hok).
    congruence.
  - intros Hkey.
    destruct (get_feature_value_field
                (CandlestickPricesItem.__init__ data style) key Hkey)
      as (field & _ & _ & Hok).
    by eauto.
  - eexists. apply get_feature_value_close_eq.
Qed.

(** ** CandlestickVolumeItem *)

(** C2. For every volume series, every range query of the series and
    every window, [get_local_plot_range] returns the integer 0 as its
    first component, whatever the data holds, and as its second the
    maximum the series reports for the window divided by 1e8. *)
Theorem volume_local_plot_range `{IndexedSeries VolumeDataFrame}
    (data : VolumeDataFrame) (style : Style) (x_start x_end : float) :
  CandlestickVolumeItem.get_local_plot_range
    (CandlestickVolumeItem.__init__ data style) x_start x_end =
  (0%Z, ((get_local_range data x_start x_end).2 / 1e8)%float).
Proof.
  unfold CandlestickVolumeItem.get_local_plot_range. simpl.
  by destruct (get_local_range data x_start x_end).
Qed.

(** The scenario of the spec: volumes 5e7, 2e8, 1e8 give the bars
    0.5, 2, 1 and the range (0, 2). *)
Example volume_scenario :
  CandlestickVolumeItem.get_feature_value
    (CandlestickVolumeItem.__init__ example_volume example_style) None
  = [0.5%float; 2%float; 1%float]
  ∧ @CandlestickVolumeItem.get_local_plot_range VolumeWindowSeries
      (CandlestickVolumeItem.__init__ example_volume example_style) 0 2
    = (0%Z, 2%float).
Proof. split; reflexivity. Qed.

(** The minimum the series reports never reaches the result. *)
Example volume_range_ignores_minimum :
  @CandlestickVolumeItem.get_local_plot_range
    {| get_local_range := λ _ _ _, ((-7)%float, 3e8%float) |}
    (CandlestickVolumeItem.__init__ example_volume example_style) 0 2
  = (0%Z, 3%float).
Proof. reflexivity. Qed.

(** ** The factory *)

(** C6. The factory returns a [CandlestickPricesItem] for a
    [PricesDataFrame], a [CandlestickVolumeItem] for a [VolumeDataFrame],
    raises its [TypeError] for any other series, and never returns a line
    item. *)
Theorem get_plot_item_dispatch (data_frame : SeriesObject) (style : Style) :
  match data_frame with
  | APricesDataFrame d =>
      get_plot_item data_frame style =
      Ok (PricesItem (CandlestickPricesItem.__init__ d style))
  | AVolumeDataFrame d =>
      get_plot_item data_frame style =
      Ok (VolumeItem (CandlestickVolumeItem.__init__ d style))
  | AChildDataFrame _ =>
      get_plot_item data_frame style =
      Raise (TypeError "data_frame must be PricesDataFrame")
  end
  ∧ ∀ item, get_plot_item data_frame style ≠ Ok (LineItem item).
Proof. by destruct data_frame. Qed.

(** ** LinePlotItem *)

(** Indexing two arrays side by side over [range(len(x))]: the points of
    the column when the column is at least as long as the index, an
    [IndexError] otherwise. *)
Lemma mapM_points_from (prex x : list Z) (prey y : list float) :
  length prex = length prey →
  mapM (λ i, xi ← getitem (prex ++ x) i; yi ← getitem (prey ++ y) i;
             Ok (mkQPointF (float_of_int xi) yi))
       (seq (length prex) (length x))
  = if decide (length x ≤ length y) then Ok (zip_with data_point x y)
    else Raise IndexError.
Proof.
  revert prex prey y. induction x as [|a x IH]; intros prex prey y Hlen.
  - destruct (decide _) as [_|Hn]; [reflexivity|simpl in Hn; lia].
  - destruct y as [|b y].
    + destruct (decide _) as [Hle|_]; [simpl in Hle; lia|].
      simpl seq. simpl mapM.
      rewrite getitem_middle, Hlen, app_nil_r, getitem_end.
      reflexivity.
    + specialize (IH (prex ++ [a]) (prey ++ [b]) y).
      rewrite <- !app_assoc, !length_app in IH. simpl in IH.
      replace (length prex + 1) with (S (length prex)) in IH by lia.
      simpl seq. simpl mapM.
      rewrite getitem_middle, Hlen, getitem_middle. rewrite <- Hlen.
      cbn [mbind Result_bind].
      rewrite IH by lia.
      destruct (decide (length x ≤ length y)),
        (decide (length (a :: x) ≤ length (b :: y)));
        simpl in *; try lia; reflexivity.
Qed.

Lemma polyline_points_eq (x : list Z) (y : list float) :
  LinePlotItem.polyline_points x y =
  if decide (length x ≤ length y) then Ok (zip_with data_point x y)
  else Raise IndexError.
Proof. exact (mapM_points_from [] x [] y eq_refl). Qed.

(** One column of an aligned frame: the polyline is drawn. *)
Lemma draw_column_present (data : ChildDataFrame) (pic : QPicture)
    (key : string) (y : list float) :
  df_columns (data_frame data) !! key = Some y →
  length (df_index (data_frame data)) ≤ length y →
  LinePlotItem.draw_column data (df_index (data_frame data)) pic key =
  Ok (Recorder.drawPolyline
        (zip_with data_point (df_index (data_frame data)) y) pic).
Proof.
  intros Hy Hlen. unfold LinePlotItem.draw_column.
  rewrite Hy, polyline_points_eq, decide_True by done. reflexivity.
Qed.

(** An absent column: the [ValueError] that names the key. *)
Lemma draw_column_absent (data : ChildDataFrame) (x : list Z) (pic : QPicture)
    (key : string) :
  df_columns (data_frame data) !! key = None →
  LinePlotItem.draw_column data x pic key =
  Raise (ValueError ("Data key '" +:+ key +:+ "' not found in data frame.")).
Proof. unfold LinePlotItem.draw_column. by intros ->. Qed.

(** A column that was drawn exists and covers the index. *)
Lemma draw_column_Ok_inv (data : ChildDataFrame) (pic pic' : QPicture)
    (key : string) :
  LinePlotItem.draw_column data (df_index (data_frame data)) pic key = Ok pic' →
  ∃ y, df_columns (data_frame data) !! key = Some y
       ∧ length (df_index (data_frame data)) ≤ length y.
Proof.
  unfold LinePlotItem.draw_column.
  destruct (df_columns (data_frame data) !! key) as [y|]; [|done].
  rewrite polyline_points_eq. case_decide; [by eauto|done].
Qed.

(** A column that raised was absent, or shorter than the index. *)
Lemma draw_column_Raise_inv (data : ChildDataFrame) (pic : QPicture)
    (key : string) (e : PyError) :
  LinePlotItem.draw_column data (df_index (data_frame data)) pic key = Raise e →
  df_columns (data_frame data) !! key = None ∨ e = IndexError.
Proof.
  unfold LinePlotItem.draw_column.
  destruct (df_columns (data_frame data) !! key) as [y|]; [|by left].
  rewrite polyline_points_eq. destruct (decide _); [done|].
  intros [= <-]. by right.
Qed.

Lemma for_each_cons {S X : Type} (body : S → X → Result S) (s : S) (x : X)
    (l : list X) :
  for_each body s (x :: l) = s' ← body s x; for_each body s' l.
Proof. reflexivity. Qed.

(** The only [ValueError] of the loop is the one of an absent key. *)
Lemma draw_columns_ValueError (data : ChildDataFrame) (keys : list string)
    (pic : QPicture) (msg : string) :
  for_each (LinePlotItem.draw_column data (df_index (data_frame data)))
    pic keys = Raise (ValueError msg) →
  ∃ key, key ∈ keys ∧ df_columns (data_frame data) !! key = None.
Proof.
  revert pic. induction keys as [|key keys IH]; intros pic Hrun; [done|].
  rewrite for_each_cons in Hrun.
  destruct (LinePlotItem.draw_column data _ pic key) as [pic'|e] eqn:E;
    cbn [mbind Result_bind] in Hrun.
  - destruct (IH _ Hrun) as (key' & Hin & Habs).
    exists key'. split; [by right|done].
  - injection Hrun as ->.
    destruct (draw_column_Raise_inv _ _ _ _ E) as [Habs|?]; [|done].
    exists key. split; [by left|done].
Qed.

(** In an aligned frame the loop stops at the first absent key, with the
    [ValueError] that names it. *)
Lemma draw_columns_absent (data : ChildDataFrame) (keys : list string)
    (pic : QPicture) :
  DataFrame_aligned (data_frame data) →
  (∃ key, key ∈ keys ∧ df_columns (data_frame data) !! key = None) →
  ∃ key, key ∈ keys ∧ df_columns (data_frame data) !! key = None
    ∧ for_each (LinePlotItem.draw_column data (df_index (data_frame data)))
        pic keys =
      Raise (ValueError ("Data key '" +:+ key +:+ "' not found in data frame.")).
Proof.
  intros Hwf. revert pic. induction keys as [|key keys IH]; intros pic Habs.
  - destruct Habs as (key & Hin & _). by inversion Hin.
  - rewrite for_each_cons.
    destruct (df_columns (data_frame data) !! key) as [y|] eqn:Hy.
    + destruct (IH (Recorder.drawPolyline
                      (zip_with data_point (df_index (data_frame data)) y) pic))
        as (key' & Hin & Hnone & Hrun).
      { destruct Habs as (key' & Hin & Hnone).
        apply elem_of_cons in Hin as [->|Hin]; [congruence|by eauto]. }
      exists key'. split; [by right|]. split; [done|].
      rewrite (draw_column_present data pic key y Hy).
      * exact Hrun.
      * by rewrite (Hwf key y Hy).
    + exists key. split; [by left|]. split; [done|].
      by rewrite (draw_column_absent data _ pic key Hy).
Qed.

(** When every requested key is a column of an aligned frame the loop
    draws them all. *)
Lemma draw_columns_present (data : ChildDataFrame) (keys : list string)
    (pic : QPicture) :
  DataFrame_aligned (data_frame data) →
  (∀ key, key ∈ keys → is_Some (df_columns (data_frame data) !! key)) →
  ∃ pic',
    for_each (LinePlotItem.draw_column data (df_index (data_frame data)))
      pic keys = Ok pic'.
Proof.
  intros Hwf Hall. eexists.
  apply (for_each_total _
    (λ pic key, Recorder.drawPolyline
       (zip_with data_point (df_index (data_frame data))
          (default [] (df_columns (data_frame data) !! key))) pic)).
  intros pic0 key Hin. destruct (Hall key Hin) as [y Hy].
  rewrite Hy. simpl default. apply draw_column_present; [done|].
  by rewrite (Hwf key y Hy).
Qed.

Lemma init_eq (data : ChildDataFrame) (style : Style) (marker : option string) :
  LinePlotItem.__init__ data style marker =
  pic ← for_each (LinePlotItem.draw_column data (df_index (data_frame data)))
         (Recorder.setPen
            (mkPen (line_color style) (Some (line_width style))) [])
         (data_keys data);
  Ok {| LinePlotItem.data := data;
        LinePlotItem.style := style;
        LinePlotItem.marker_drawer := marker ≫= (LinePlotItem.MARKER_DRAWER !!.);
        LinePlotItem.picture := pic |}.
Proof. reflexivity. Qed.

(** X21. Constructing a [LinePlotItem] over an aligned frame raises the
    [ValueError] of an unknown column key exactly when one of the
    requested keys is not a column of the frame; and when every requested
    key is a column the construction succeeds. *)
Theorem line_item_unknown_column (data : ChildDataFrame) (style : Style)
    (marker : option string) :
  DataFrame_aligned (data_frame data) →
  ((∃ key, key ∈ data_keys data ∧ df_columns (data_frame data) !! key = None)
   ↔ ∃ msg, LinePlotItem.__init__ data style marker = Raise (ValueError msg))
  ∧ ((∀ key, key ∈ data_keys data →
        is_Some (df_columns (data_frame data) !! key))
     → ∃ item, LinePlotItem.__init__ data style marker = Ok item).
Proof.
  intros Hwf. split; [split|].
  - intros Habs. rewrite init_eq.
    destruct (draw_columns_absent data (data_keys data)
                (Recorder.setPen
                   (mkPen (line_color style) (Some (line_width style))) [])
                Hwf Habs) as (key & _ & _ & ->).
    by eexists.
  - intros [msg Hraise]. rewrite init_eq in Hraise.
    destruct (for_each _ _ _) as [pic|e] eqn:Hrun; [done|].
    injection Hraise as ->.
    exact (draw_columns_ValueError _ _ _ _ Hrun).
  - intros Hall. rewrite init_eq.
    destruct (draw_columns_present data (data_keys data)
                (Recorder.setPen
                   (mkPen (line_color style) (Some (line_width style))) [])
                Hwf Hall) as [pic ->].
    by eexists.
Qed.

Lemma line_item_unknown_column_witness :
  DataFrame_aligned (data_frame example_line_missing)
  ∧ (∃ msg, LinePlotItem.__init__ example_line_missing example_style
              (Some "circle") = Raise (ValueError msg))
  ∧ LinePlotItem.__init__ example_line_missing example_style (Some "circle")
    = Raise (ValueError "Data key 'volume' not found in data frame.").
Proof.
  assert (Hwf : DataFrame_aligned (data_frame example_line_missing))
    by (apply (bool_decide_unpack _); vm_compute; exact I).
  split; [exact Hwf|]. split; [|reflexivity].
  apply (line_item_unknown_column example_line_missing example_style
           (Some "circle") Hwf).
  exists "volume". split; [set_solver|reflexivity].
Defined.

(** The loop on the object and the loop of [__init__] are the same loop:
    the outcome is the same and, when it returns, so is the picture. *)
Lemma draw_columns_on_self_eq (data : ChildDataFrame) (x : list Z)
    (keys : list string) (self : LinePlotItem.Self) :
  for_each (LinePlotItem.draw_column data x)
    (default [] (LinePlotItem.self_picture self)) keys =
  match LinePlotItem.draw_columns_on_self data x keys self with
  | (Ok _, self') => Ok (default [] (LinePlotItem.self_picture self'))
  | (Raise e, _) => Raise e
  end.
Proof.
  revert self. induction keys as [|key keys IH]; intros self; [done|].
  rewrite for_each_cons. cbn [LinePlotItem.draw_columns_on_self].
  destruct (LinePlotItem.draw_column data x _ key) as [pic|e];
    cbn [mbind Result_bind]; [|done].
  exact (IH (LinePlotItem.set_self_picture pic self)).
Qed.

(** The loop touches the picture only. *)
Lemma draw_columns_on_self_attrs (data : ChildDataFrame) (x : list Z)
    (keys : list string) (self : LinePlotItem.Self) :
  let self' := (LinePlotItem.draw_columns_on_self data x keys self).2 in
  LinePlotItem.self_data self' = LinePlotItem.self_data self
  ∧ LinePlotItem.self_style self' = LinePlotItem.self_style self
  ∧ LinePlotItem.self_marker_drawer self'
    = LinePlotItem.self_marker_drawer self
  ∧ LinePlotItem.painting_active self' = LinePlotItem.painting_active self
  ∧ (is_Some (LinePlotItem.self_picture self) →
     is_Some (LinePlotItem.self_picture self')).
Proof.
  revert self. induction keys as [|key keys IH]; intros self; [done|].
  cbn [LinePlotItem.draw_columns_on_self].
  destruct (LinePlotItem.draw_column data x _ key) as [pic|e]; [|done].
  destruct (IH (LinePlotItem.set_self_picture pic self))
    as (Hd & Hs & Hm & Hp & Hpic).
  repeat split; [done..|]. intros _. by apply Hpic.
Qed.

(** [__init__] as a function to its result is [__init__] on the object,
    read at the end: the same exception, or the item whose attributes are
    those of the object, with the painter ended. *)
Lemma init_on_self_agrees (data : ChildDataFrame) (style : Style)
    (marker : option string) :
  match LinePlotItem.__init__on_self data style marker with
  | (Ok _, self) =>
      ∃ item, LinePlotItem.__init__ data style marker = Ok item
        ∧ LinePlotItem.self_data self = Some (LinePlotItem.data item)
        ∧ LinePlotItem.self_style self = Some (LinePlotItem.style item)
        ∧ LinePlotItem.self_marker_drawer self
          = Some (LinePlotItem.marker_drawer item)
        ∧ LinePlotItem.self_picture self = Some (LinePlotItem.picture item)
        ∧ LinePlotItem.painting_active self = false
  | (Raise e, self) =>
      LinePlotItem.__init__ data style marker = Raise e
      ∧ LinePlotItem.painting_active self = true
  end.
Proof.
  rewrite init_eq. unfold LinePlotItem.__init__on_self.
  set (self0 := LinePlotItem.record_on_picture _ _).
  change (Recorder.setPen _ []) with (default [] (LinePlotItem.self_picture self0)).
  rewrite draw_columns_on_self_eq.
  pose proof (draw_columns_on_self_attrs data (df_index (data_frame data))
                (data_keys data) self0) as Hattrs.
  destruct (LinePlotItem.draw_columns_on_self _ _ _ self0) as [[[]|e] self'];
    cbn [snd] in Hattrs; destruct Hattrs as (Hd & Hs & Hm & Hp & Hpic).
  - destruct Hpic as [pic Hpic]; [done|].
    eexists. split; [reflexivity|]. cbn.
    by rewrite Hd, Hs, Hm, Hpic.
  - split; [done|]. by rewrite Hp.
Qed.




(** The same frame with the present key only: the constructor returns,
    and its last statement has ended the painter. *)
Example line_item_built_example :
  LinePlotItem.__init__on_self example_line example_style (Some "circle") =
  (Ok tt,
   {| LinePlotItem.self_data := Some example_line;
      LinePlotItem.self_style := Some example_style;
      LinePlotItem.self_marker_drawer := Some (Some draw_circle_marker_ref);
      LinePlotItem.self_picture :=
        Some [ SetPen (mkPen "w" (Some 1%float));
               DrawPolyline [mkQPointF 0 1.5; mkQPointF 1 2.5] ];
      LinePlotItem.painting_active := false |}).
Proof. reflexivity. Qed.

(** The drawer a marker argument selects. *)
Lemma marker_recognized (marker : option string) :
  marker = Some "circle" ∨ marker = Some "o" →
  marker ≫= (LinePlotItem.MARKER_DRAWER !!.) = Some draw_circle_marker_ref.
Proof. by intros [-> | ->]. Qed.

Lemma marker_unrecognized (marker : option string) :
  marker ≠ Some "circle" → marker ≠ Some "o" →
  marker ≫= (LinePlotItem.MARKER_DRAWER !!.) = None.
Proof.
  intros Hcircle Ho. destruct marker as [m|]; [|done]. simpl.
  unfold LinePlotItem.MARKER_DRAWER.
  rewrite lookup_insert_ne by congruence.
  apply lookup_singleton_ne. congruence.
Qed.

(** An item that was constructed: its fields, and the columns its picture
    was drawn from. *)
Lemma init_Ok_inv (data : ChildDataFrame) (style : Style)
    (marker : option string) (item : LinePlotItem.t) :
  LinePlotItem.__init__ data style marker = Ok item →
  LinePlotItem.data item = data
  ∧ LinePlotItem.style item = style
  ∧ LinePlotItem.marker_drawer item = marker ≫= (LinePlotItem.MARKER_DRAWER !!.)
  ∧ ∀ key, key ∈ data_keys data →
      ∃ y, df_columns (data_frame data) !! key = Some y
           ∧ length (df_index (data_frame data)) ≤ length y.
Proof.
  rewrite init_eq.
  destruct (for_each _ _ _) as [pic|e] eqn:Hrun; [|done].
  intros [= <-]. repeat split.
  intros key Hin.
  destruct (for_each_Ok_inv _ _ _ _ key Hrun Hin) as (pic1 & pic2 & Hcol).
  exact (draw_column_Ok_inv _ _ _ _ Hcol).
Qed.

Section LinePainting.
Context `{QTransformOps QTransform}.
Implicit Type p : QPainter QTransform.

(** Drawing circle markers at the images of a list of points adds one
    ellipse per point, with the pen, brush and transform of the painter. *)
Lemma fold_circle_markers (frame : QTransform) (r : float)
    (pts : list QPointF) p :
  fold_left (λ p pt, call_marker_drawer draw_circle_marker_ref p
                       (transform_map frame pt) r) pts p =
  mkQPainter (pen p) (brush p) (transform p) (saved p)
    (surface p ++
       ((λ pt, mkDrawn (Ellipse (transform_map frame pt) r r)
                 (pen p) (brush p) (transform p)) <$> pts)).
Proof.
  revert p. induction pts as [|pt pts IH]; intros p.
  - destruct p. simpl. by rewrite app_nil_r.
  - simpl fold_left. rewrite IH. simpl. by rewrite <- app_assoc.
Qed.

(** The markers of one column that covers the index. *)
Lemma draw_markers_eq (drawer : MarkerDrawer) (frame : QTransform)
    (r : float) (x : list Z) (y : list float) p :
  length x ≤ length y →
  LinePlotItem.draw_markers drawer frame r x y p =
  Ok (fold_left (λ p pt, call_marker_drawer drawer p (transform_map frame pt) r)
        (zip_with data_point x y) p).
Proof.
  intros Hlen. unfold LinePlotItem.draw_markers.
  apply (for_each_mapM _
    (λ i, xi ← getitem x i; yi ← getitem y i;
          Ok (mkQPointF (float_of_int xi) yi))).
  - intros s i. by destruct (getitem x i), (getitem y i).
  - etrans; [exact (polyline_points_eq x y)|]. by rewrite decide_True.
Qed.

(** The loop of [paint] over the keys of a constructed item. *)
Lemma draw_all_markers (data : ChildDataFrame) (drawer : MarkerDrawer)
    (frame : QTransform) (r : float) (keys : list string) p :
  (∀ key y, key ∈ keys → df_columns (data_frame data) !! key = Some y →
            length (df_index (data_frame data)) ≤ length y) →
  for_each (λ p data_key,
      match df_columns (data_frame data) !! data_key with
      | None => Ok p
      | Some y =>
          LinePlotItem.draw_markers drawer frame r
            (df_index (data_frame data)) y p
      end) p keys =
  Ok (fold_left (λ p pt, call_marker_drawer drawer p (transform_map frame pt) r)
        (key ← keys;
         zip_with data_point (df_index (data_frame data))
           (default [] (df_columns (data_frame data) !! key))) p).
Proof.
  revert p. induction keys as [|key keys IH]; intros p Hcols; [done|].
  rewrite for_each_cons, bind_cons, fold_left_app.
  destruct (df_columns (data_frame data) !! key) as [y|] eqn:Hy.
  - rewrite draw_markers_eq by (apply (Hcols key); [by left|done]).
    simpl. apply IH. intros key' y' Hin. apply Hcols. by right.
  - simpl. rewrite zip_with_nil_r. simpl.
    apply IH. intros key' y' Hin. apply Hcols. by right.
Qed.
End LinePainting.

(** C9. For every [LinePlotItem] constructed with the marker kind
    "circle" or "o", a call of [paint] succeeds; after the cached picture
    it draws one marker per plotted point, centred at the image of the
    data point under the transform the painter had on entry, in the
    identity (device) frame and with the radius [marker_size / 2] whatever
    that transform is; and on return the painter's transform is the one it
    had on entry. *)
Theorem paint_draws_markers `{QTransformOps QTransform}
    (data : ChildDataFrame) (style : Style) (marker : option string)
    (item : LinePlotItem.t) (p : QPainter QTransform) :
  marker = Some "circle" ∨ marker = Some "o" →
  LinePlotItem.__init__ data style marker = Ok item →
  ∃ p',
    LinePlotItem.paint item p = Ok p'
    ∧ transform p' = transform p
    ∧ painted p p' =
        painted p (Painter.drawPicture 0 0 (LinePlotItem.picture item) p)
        ++ ((λ pt, circle_marker style transform_identity
                     (transform_map (transform p) pt))
              <$> plotted_points data).
Proof.
  intros Hmarker Hinit.
  destruct (init_Ok_inv _ _ _ _ Hinit) as (Hdata & Hstyle & Hdrawer & Hcols).
  rewrite (marker_recognized _ Hmarker) in Hdrawer.
  unfold LinePlotItem.paint. rewrite Hdrawer, Hdata, Hstyle.
  pose proof (drawPicture_surface 0 0 (LinePlotItem.picture item) p) as Hsurf.
  assert (Htr : transform (Painter.drawPicture 0 0 (LinePlotItem.picture item) p)
                = transform p) by (by rewrite drawPicture_eq).
  set (p1 := Painter.drawPicture 0 0 (LinePlotItem.picture item) p) in *.
  rewrite draw_all_markers.
  2:{ intros key y Hin Hy. destruct (Hcols key Hin) as (y' & Hy' & Hlen).
      congruence. }
  cbn [mbind Result_bind]. rewrite fold_circle_markers.
  eexists. split; [reflexivity|]. split; [exact Htr|].
  apply painted_app. simpl. rewrite Hsurf, Htr, <- app_assoc. reflexivity.
Qed.

Lemma paint_draws_markers_witness :
  (Some "circle" = Some "circle" ∨ Some "circle" = Some "o")
  ∧ ∃ item p',
      LinePlotItem.__init__ example_line example_style (Some "circle") = Ok item
      ∧ LinePlotItem.paint item example_painter = Ok p'
      ∧ transform p' = (10%float, 20%float)
      ∧ drawn_shape <$> painted example_painter p' =
          [ Polyline [mkQPointF 0 1.5; mkQPointF 1 2.5];
            Ellipse (mkQPointF 10 21.5) 3 3;
            Ellipse (mkQPointF 11 22.5) 3 3 ].
Proof.
  split; [by left|].
  destruct (LinePlotItem.__init__ example_line example_style (Some "circle"))
    as [item|e] eqn:Hinit; [|by vm_compute in Hinit].
  destruct (paint_draws_markers example_line example_style (Some "circle")
              item example_painter (or_introl eq_refl) Hinit)
    as (p' & Hpaint & Htr & Hpainted).
  exists item, p'. split; [reflexivity|]. split; [exact Hpaint|].
  split; [exact Htr|].
  rewrite Hpainted. vm_compute in Hinit. injection Hinit as <-.
  reflexivity.
Defined.

(** C10. A marker argument that is neither "circle" nor "o" ([None] or
    any other string) has no part in the construction: it proceeds as it
    does without a marker, so it succeeds for any aligned series whose
    requested keys are columns; the item has no marker drawer, and every
    call of [paint] on it is the replay of the cached picture alone. *)
Theorem unrecognized_marker_ignored `{QTransformOps QTransform}
    (data : ChildDataFrame) (style : Style) (marker : option string) :
  marker ≠ Some "circle" → marker ≠ Some "o" →
  LinePlotItem.__init__ data style marker = LinePlotItem.__init__ data style None
  ∧ (DataFrame_aligned (data_frame data) →
     (∀ key, key ∈ data_keys data →
        is_Some (df_columns (data_frame data) !! key)) →
     ∃ item, LinePlotItem.__init__ data style marker = Ok item)
  ∧ ∀ item, LinePlotItem.__init__ data style marker = Ok item →
      LinePlotItem.marker_drawer item = None
      ∧ ∀ p : QPainter QTransform,
          LinePlotItem.paint item p =
          Ok (Painter.drawPicture 0 0 (LinePlotItem.picture item) p).
Proof.
  intros Hcircle Ho.
  pose proof (marker_unrecognized marker Hcircle Ho) as Hnone.
  split; [|split].
  - rewrite !init_eq, Hnone. reflexivity.
  - intros Hwf Hall. rewrite init_eq.
    destruct (draw_columns_present data (data_keys data)
                (Recorder.setPen
                   (mkPen (line_color style) (Some (line_width style))) [])
                Hwf Hall) as [pic ->].
    by eexists.
  - intros item Hinit.
    destruct (init_Ok_inv _ _ _ _ Hinit) as (_ & _ & Hdrawer & _).
    rewrite Hnone in Hdrawer. split; [exact Hdrawer|].
    intros p. unfold LinePlotItem.paint. by rewrite Hdrawer.
Qed.

Lemma unrecognized_marker_ignored_witness :
  Some "square" ≠ Some "circle" ∧ Some "square" ≠ Some "o"
  ∧ ∃ item,
      LinePlotItem.__init__ example_line example_style (Some "square") = Ok item
      ∧ drawn_shape <$> painted example_painter
          (default example_painter
             (match LinePlotItem.paint item example_painter with
              | Ok p' => Some p'
              | Raise _ => None
              end))
        = [ Polyline [mkQPointF 0 1.5; mkQPointF 1 2.5] ].
Proof.
  assert (Hcircle : Some "square" ≠ Some "circle") by discriminate.
  assert (Ho : Some "square" ≠ Some "o") by discriminate.
  split; [exact Hcircle|]. split; [exact Ho|].
  destruct (LinePlotItem.__init__ example_line example_style (Some "square"))
    as [item|e] eqn:Hinit; [|by vm_compute in Hinit].
  destruct (unrecognized_marker_ignored (QTransform := float * float)
              example_line example_style (Some "square") Hcircle Ho)
    as (_ & _ & Hpaint).
  destruct (Hpaint item Hinit) as [_ Hdraw].
  exists item. split; [reflexivity|].
  rewrite Hdraw. vm_compute in Hinit. injection Hinit as <-.
  reflexivity.
Defined.

(** ** Replaying pictures *)

Section Replay.
Context `{QTransformOps QTransform}.
Implicit Type p : QPainter QTransform.

(** A replay is determined by the pen, brush and transform it starts
    with; the surface only grows and the saved states are not touched. *)
Lemma play_rendered (pic : QPicture) p :
  Painter.play pic p =
  mkQPainter (pen_after pic (pen p)) (brush_after pic (brush p))
    (transform p) (saved p)
    (surface p ++ rendered pic (pen p) (brush p) (transform p)).
Proof.
  revert p. induction pic as [|c pic IH]; intros p.
  - destruct p. simpl. by rewrite app_nil_r.
  - change (Painter.play (c :: pic) p)
      with (Painter.play pic (Painter.exec p c)).
    rewrite IH. destruct c; simpl; try reflexivity.
    all: by rewrite <- app_assoc.
Qed.

Lemma rendered_app (pic1 pic2 : QPicture) (pn : QPen) (b : QBrush)
    (frame : QTransform) :
  rendered (pic1 ++ pic2) pn b frame =
  rendered pic1 pn b frame
  ++ rendered pic2 (pen_after pic1 pn) (brush_after pic1 b) frame.
Proof.
  revert pn b. induction pic1 as [|c pic1 IH]; intros pn b; [done|].
  destruct c; simpl; rewrite IH; reflexivity.
Qed.

(** [drawPicture] in one equation: the state is kept, the surface gets
    what the picture renders in the translated frame. *)
Lemma drawPicture_rendered (x y : float) (pic : QPicture) p :
  Painter.drawPicture x y pic p =
  mkQPainter (pen p) (brush p) (transform p) (saved p)
    (surface p ++
       rendered pic (pen p) (brush p) (transform_translate x y (transform p))).
Proof. rewrite drawPicture_eq, play_rendered. reflexivity. Qed.

Lemma painted_drawPicture (x y : float) (pic : QPicture) p :
  painted p (Painter.drawPicture x y pic p) =
  rendered pic (pen p) (brush p) (transform_translate x y (transform p)).
Proof. apply painted_app. by rewrite drawPicture_rendered. Qed.

(** Two pictures drawn one after the other: each draws what it would
    draw alone. *)
Lemma drawPicture_twice (x1 y1 x2 y2 : float) (pic1 pic2 : QPicture) p :
  painted p (Painter.drawPicture x2 y2 pic2 (Painter.drawPicture x1 y1 pic1 p)) =
  painted p (Painter.drawPicture x1 y1 pic1 p)
  ++ painted p (Painter.drawPicture x2 y2 pic2 p).
Proof.
  rewrite !painted_drawPicture. apply painted_app.
  rewrite (drawPicture_rendered x2 y2), (drawPicture_rendered x1 y1). simpl.
  by rewrite <- app_assoc.
Qed.
End Replay.

(** ** CandlestickVolumeItem: the bars *)

Lemma fold_draw_bar (style : Style) (rows : list (Z * float)) (pic : QPicture) :
  fold_left (CandlestickVolumeItem.draw_bar style) rows pic =
  pic ++ ((λ row : Z * float,
             DrawRect (mkQRectF (float_of_int row.1 - bar_width style) 0
                         (bar_width style * 2) (row.2 / 1e8))) <$> rows).
Proof.
  revert pic. induction rows as [|[t volume] rows IH]; intros pic; simpl.
  - by rewrite app_nil_r.
  - rewrite IH. unfold Recorder.drawRect. by rewrite <- app_assoc.
Qed.

Lemma rendered_rects {QTransform X : Type} (rect : X → QRectF) (l : list X)
    (pn : QPen) (b : QBrush) (frame : QTransform) :
  rendered ((λ x, DrawRect (rect x)) <$> l) pn b frame =
  (λ x, mkDrawn (Rect (rect x)) pn b frame) <$> l.
Proof. induction l as [|x l IH]; [done|]. simpl. f_equal. exact IH. Qed.

Lemma paint_bars `{QTransformOps QTransform} (data : VolumeDataFrame)
    (style : Style) (p : QPainter QTransform) :
  painted p (CandlestickVolumeItem.paint
               (CandlestickVolumeItem.__init__ data style) p) =
  volume_bar style (transform_translate 0 0 (transform p)) <$> volume_rows data.
Proof.
  unfold CandlestickVolumeItem.paint. rewrite painted_drawPicture. simpl.
  rewrite fold_draw_bar. simpl. apply rendered_rects.
Qed.

(** X1. Painting a volume item draws exactly one rectangle per row, in
    row order: the bar of row [i] stands on the baseline 0, reaches
    [volume / 1e8], has the half-width [bar_width] around the ordinal, and
    pen and brush are the style's volume colour for every bar. *)
Theorem volume_bars_drawn `{QTransformOps QTransform}
    (data : VolumeDataFrame) (style : Style) (p : QPainter QTransform) :
  length (painted p (CandlestickVolumeItem.paint
                       (CandlestickVolumeItem.__init__ data style) p))
  = length (volume_rows data)
  ∧ ∀ i t volume,
      volume_rows data !! i = Some (t, volume) →
      painted p (CandlestickVolumeItem.paint
                   (CandlestickVolumeItem.__init__ data style) p) !! i
      = Some (mkDrawn
                (Rect (mkQRectF (float_of_int t - bar_width style) 0
                         (bar_width style * 2) (volume / 1e8)))
                (mkPen (volume_color style) None)
                (mkBrush (volume_color style))
                (transform_translate 0 0 (transform p))).
Proof.
  rewrite paint_bars. split; [apply length_fmap|].
  intros i t volume Hrow. by rewrite list_lookup_fmap, Hrow.
Qed.

(** X2. The feature values of a volume item do not depend on the key,
    there is one per row, and the value of row [i] is [volume / 1e8], the
    height of the bar painted for that row. *)
Theorem volume_feature_is_bar_height `{QTransformOps QTransform}
    (data : VolumeDataFrame) (style : Style) (key : option string)
    (p : QPainter QTransform) :
  CandlestickVolumeItem.get_feature_value
    (CandlestickVolumeItem.__init__ data style) key
  = CandlestickVolumeItem.get_feature_value
      (CandlestickVolumeItem.__init__ data style) None
  ∧ length (CandlestickVolumeItem.get_feature_value
              (CandlestickVolumeItem.__init__ data style) key)
    = length (volume_rows data)
  ∧ ∀ i t volume,
      volume_rows data !! i = Some (t, volume) →
      CandlestickVolumeItem.get_feature_value
        (CandlestickVolumeItem.__init__ data style) key !! i
      = Some (volume / 1e8)%float
      ∧ ∃ bar r,
          painted p (CandlestickVolumeItem.paint
                       (CandlestickVolumeItem.__init__ data style) p) !! i
          = Some bar
          ∧ drawn_shape bar = Rect r
          ∧ rect_top r = 0%float
          ∧ rect_height r = (volume / 1e8)%float.
Proof.
  split; [reflexivity|]. split.
  - unfold CandlestickVolumeItem.get_feature_value. apply length_fmap.
  - intros i t volume Hrow. split.
    + unfold CandlestickVolumeItem.get_feature_value. simpl.
      by rewrite list_lookup_fmap, Hrow.
    + rewrite paint_bars, list_lookup_fmap, Hrow. simpl.
      by eexists _, _.
Qed.

(** X3. The order of [available_keys] matches the layout of the tuples a
    price series yields: each of the four keys selects its own field of
    every row, never the ordinal and never a neighbouring field. *)
Theorem get_feature_value_fields (data : PricesDataFrame) (style : Style) :
  CandlestickPricesItem.get_feature_value
    (CandlestickPricesItem.__init__ data style) (Some "open")
  = Ok ((λ row, PyFloat (row_open row)) <$> prices_rows data)
  ∧ CandlestickPricesItem.get_feature_value
      (CandlestickPricesItem.__init__ data style) (Some "close")
    = Ok ((λ row, PyFloat (row_close row)) <$> prices_rows data)
  ∧ CandlestickPricesItem.get_feature_value
      (CandlestickPricesItem.__init__ data style) (Some "high")
    = Ok ((λ row, PyFloat (row_high row)) <$> prices_rows data)
  ∧ CandlestickPricesItem.get_feature_value
      (CandlestickPricesItem.__init__ data style) (Some "low")
    = Ok ((λ row, PyFloat (row_low row)) <$> prices_rows data).
Proof.
  repeat split.
  - exact (mapM_price_field _ 1 row_open (λ _, eq_refl)).
  - exact (mapM_price_field _ 2 row_close (λ _, eq_refl)).
  - exact (mapM_price_field _ 3 row_high (λ _, eq_refl)).
  - exact (mapM_price_field _ 4 row_low (λ _, eq_refl)).
Qed.

(** X4. Painting a price item is a replay that leaves the painter as it
    found it: pen, brush, transform and saved states are unchanged, 2N
    primitives are added for N rows, and painting again adds the same
    primitives once more. *)
Theorem prices_paint_replay `{QTransformOps QTransform}
    (data : PricesDataFrame) (style : Style) (p : QPainter QTransform) :
  pen (CandlestickPricesItem.paint
         (CandlestickPricesItem.__init__ data style) p) = pen p
  ∧ brush (CandlestickPricesItem.paint
             (CandlestickPricesItem.__init__ data style) p) = brush p
  ∧ transform (CandlestickPricesItem.paint
                 (CandlestickPricesItem.__init__ data style) p) = transform p
  ∧ saved (CandlestickPricesItem.paint
             (CandlestickPricesItem.__init__ data style) p) = saved p
  ∧ length (painted p (CandlestickPricesItem.paint
                         (CandlestickPricesItem.__init__ data style) p))
    = 2 * length (prices_rows data)
  ∧ painted p (CandlestickPricesItem.paint
                 (CandlestickPricesItem.__init__ data style)
                 (CandlestickPricesItem.paint
                    (CandlestickPricesItem.__init__ data style) p))
    = painted p (CandlestickPricesItem.paint
                   (CandlestickPricesItem.__init__ data style) p)
      ++ painted p (CandlestickPricesItem.paint
                      (CandlestickPricesItem.__init__ data style) p).
Proof.
  unfold CandlestickPricesItem.paint at 1 2 3 4.
  rewrite drawPicture_rendered. simpl. repeat split.
  - rewrite paint_candles.
    induction (prices_rows data) as [|row rows IH]; [done|].
    rewrite bind_cons, length_app, IH. simpl. lia.
  - unfold CandlestickPricesItem.paint. apply drawPicture_twice.
Qed.

(** X5. A price item and a volume item painted on the same painter, in
    either order, each draw what they draw alone: the second item is not
    affected by the first, whose pen and brush do not leak. *)
Theorem price_volume_overlay `{QTransformOps QTransform}
    (prices : CandlestickPricesItem.t) (volume : CandlestickVolumeItem.t)
    (p : QPainter QTransform) :
  painted p (CandlestickVolumeItem.paint volume
               (CandlestickPricesItem.paint prices p))
  = painted p (CandlestickPricesItem.paint prices p)
    ++ painted p (CandlestickVolumeItem.paint volume p)
  ∧ painted p (CandlestickPricesItem.paint prices
                 (CandlestickVolumeItem.paint volume p))
    = painted p (CandlestickVolumeItem.paint volume p)
      ++ painted p (CandlestickPricesItem.paint prices p).
Proof.
  unfold CandlestickVolumeItem.paint, CandlestickPricesItem.paint.
  split; apply drawPicture_twice.
Qed.

(** ** LinePlotItem: the cached picture and the painter's state *)

(** The loop of [__init__] that ran to its end recorded one polyline per
    requested key. *)
Lemma draw_columns_Ok (data : ChildDataFrame) (keys : list string)
    (pic pic' : QPicture) :
  for_each (LinePlotItem.draw_column data (df_index (data_frame data)))
    pic keys = Ok pic' →
  pic' = pic ++
    ((λ key, DrawPolyline
               (zip_with data_point (df_index (data_frame data))
                  (default [] (df_columns (data_frame data) !! key))))
       <$> keys).
Proof.
  revert pic. induction keys as [|key keys IH]; intros pic Hrun.
  - injection Hrun as <-. by rewrite app_nil_r.
  - rewrite for_each_cons in Hrun.
    destruct (LinePlotItem.draw_column data _ pic key) as [pic1|e] eqn:E;
      cbn [mbind Result_bind] in Hrun; [|done].
    destruct (draw_column_Ok_inv _ _ _ _ E) as (y & Hy & Hlen).
    rewrite (draw_column_present data pic key y Hy Hlen) in E.
    injection E as <-. rewrite (IH _ Hrun), fmap_cons, Hy.
    unfold Recorder.drawPolyline. by rewrite <- app_assoc.
Qed.

Lemma init_picture (data : ChildDataFrame) (style : Style)
    (marker : option string) (item : LinePlotItem.t) :
  LinePlotItem.__init__ data style marker = Ok item →
  LinePlotItem.picture item =
  SetPen (mkPen (line_color style) (Some (line_width style)))
  :: ((λ key, DrawPolyline
                (zip_with data_point (df_index (data_frame data))
                   (default [] (df_columns (data_frame data) !! key))))
        <$> data_keys data).
Proof.
  rewrite init_eq.
  destruct (for_each _ _ _) as [pic|e] eqn:Hrun; [|done].
  intros [= <-]. simpl. exact (draw_columns_Ok _ _ _ _ Hrun).
Qed.

Lemma rendered_polylines {QTransform X : Type} (points : X → list QPointF)
    (l : list X) (pn : QPen) (b : QBrush) (frame : QTransform) :
  rendered ((λ x, DrawPolyline (points x)) <$> l) pn b frame =
  (λ x, mkDrawn (Polyline (points x)) pn b frame) <$> l.
Proof. induction l as [|x l IH]; [done|]. simpl. f_equal. exact IH. Qed.

(** What the replay of the cached picture of a constructed item draws. *)
Lemma painted_line_picture `{QTransformOps QTransform}
    (data : ChildDataFrame) (style : Style) (marker : option string)
    (item : LinePlotItem.t) (p : QPainter QTransform) :
  LinePlotItem.__init__ data style marker = Ok item →
  painted p (Painter.drawPicture 0 0 (LinePlotItem.picture item) p) =
  column_polyline data style (brush p)
    (transform_translate 0 0 (transform p)) <$> data_keys data.
Proof.
  intros Hinit. rewrite painted_drawPicture, (init_picture _ _ _ _ Hinit).
  simpl. apply rendered_polylines.
Qed.

(** [paint] on an item whose marker drawer is set, in one equation. *)
Lemma paint_marked_eq `{QTransformOps QTransform}
    (data : ChildDataFrame) (style : Style) (marker : option string)
    (item : LinePlotItem.t) (p : QPainter QTransform) :
  marker = Some "circle" ∨ marker = Some "o" →
  LinePlotItem.__init__ data style marker = Ok item →
  LinePlotItem.paint item p =
  Ok (mkQPainter
        (mkPen (marker_color style) (Some (line_width style)))
        (mkBrush (marker_color style)) (transform p) (saved p)
        (surface p
         ++ (column_polyline data style (brush p)
               (transform_translate 0 0 (transform p)) <$> data_keys data)
         ++ ((λ pt, circle_marker style transform_identity
                      (transform_map (transform p) pt))
               <$> plotted_points data))).
Proof.
  intros Hmarker Hinit.
  destruct (init_Ok_inv _ _ _ _ Hinit) as (Hdata & Hstyle & Hdrawer & Hcols).
  rewrite (marker_recognized _ Hmarker) in Hdrawer.
  pose proof (painted_line_picture _ _ _ _ p Hinit) as Hpic.
  rewrite painted_drawPicture in Hpic.
  unfold LinePlotItem.paint. rewrite Hdrawer, Hdata, Hstyle.
  rewrite drawPicture_rendered, Hpic.
  rewrite draw_all_markers.
  2:{ intros key y Hin Hy. destruct (Hcols key Hin) as (y' & Hy' & Hlen).
      congruence. }
  cbn [mbind Result_bind]. rewrite fold_circle_markers. simpl.
  by rewrite <- app_assoc.
Qed.

(** [paint] on an item without a marker drawer. *)
Lemma paint_unmarked_eq `{QTransformOps QTransform}
    (data : ChildDataFrame) (style : Style) (marker : option string)
    (item : LinePlotItem.t) (p : QPainter QTransform) :
  LinePlotItem.__init__ data style marker = Ok item →
  LinePlotItem.marker_drawer item = None →
  LinePlotItem.paint item p =
  Ok (mkQPainter (pen p) (brush p) (transform p) (saved p)
        (surface p
         ++ (column_polyline data style (brush p)
               (transform_translate 0 0 (transform p)) <$> data_keys data))).
Proof.
  intros Hinit Hnone.
  pose proof (painted_line_picture _ _ _ _ p Hinit) as Hpic.
  rewrite painted_drawPicture in Hpic.
  unfold LinePlotItem.paint. rewrite Hnone, drawPicture_rendered, Hpic.
  reflexivity.
Qed.

Lemma length_plotted_points (data : ChildDataFrame) :
  (∀ key, key ∈ data_keys data →
     ∃ y, df_columns (data_frame data) !! key = Some y
          ∧ length (df_index (data_frame data)) ≤ length y) →
  length (plotted_points data)
  = length (data_keys data) * length (df_index (data_frame data)).
Proof.
  unfold plotted_points.
  induction (data_keys data) as [|key keys IH]; intros Hcols; [done|].
  rewrite bind_cons, length_app, IH by (intros k Hk; apply Hcols; by right).
  destruct (Hcols key) as (y & -> & Hlen); [by left|].
  simpl. rewrite length_zip_with. lia.
Qed.

(** X6. Painting a constructed line item first draws one polyline per
    requested key, in key order, through the points (ordinal, value) of
    that column, with the line pen of the style; without a recognized
    marker that is all it draws. *)
Theorem line_polylines_drawn `{QTransformOps QTransform}
    (data : ChildDataFrame) (style : Style) (marker : option string)
    (item : LinePlotItem.t) (p : QPainter QTransform) :
  LinePlotItem.__init__ data style marker = Ok item →
  ∃ p',
    LinePlotItem.paint item p = Ok p'
    ∧ take (length (data_keys data)) (painted p p') =
        column_polyline data style (brush p)
          (transform_translate 0 0 (transform p)) <$> data_keys data
    ∧ (marker ≠ Some "circle" → marker ≠ Some "o" →
       painted p p' =
         column_polyline data style (brush p)
           (transform_translate 0 0 (transform p)) <$> data_keys data).
Proof.
  intros Hinit.
  destruct (decide (marker = Some "circle" ∨ marker = Some "o"))
    as [Hmarker|Hmarker].
  - eexists. split; [exact (paint_marked_eq _ _ _ _ p Hmarker Hinit)|].
    split.
    + unfold painted. simpl. rewrite drop_app_length.
      rewrite take_app_length'; [done|by rewrite length_fmap].
    + intros Hcircle Ho. destruct Hmarker; contradiction.
  - destruct (init_Ok_inv _ _ _ _ Hinit) as (_ & _ & Hdrawer & _).
    rewrite marker_unrecognized in Hdrawer by tauto.
    eexists. split; [exact (paint_unmarked_eq _ _ _ _ p Hinit Hdrawer)|].
    unfold painted. simpl. rewrite drop_app_length. split; [|done].
    apply take_ge. by rewrite length_fmap.
Qed.

Lemma line_polylines_drawn_witness :
  ∃ item p',
    LinePlotItem.__init__ example_line example_style None = Ok item
    ∧ LinePlotItem.paint item example_painter = Ok p'
    ∧ drawn_shape <$> painted example_painter p' =
        [ Polyline [mkQPointF 0 1.5; mkQPointF 1 2.5] ]
    ∧ drawn_pen <$> painted example_painter p' = [ mkPen "w" (Some 1%float) ].
Proof.
  destruct (LinePlotItem.__init__ example_line example_style None)
    as [item|e] eqn:Hinit; [|by vm_compute in Hinit].
  destruct (line_polylines_drawn example_line example_style None item
              example_painter Hinit) as (p' & Hpaint & _ & Hall).
  exists item, p'. split; [reflexivity|]. split; [exact Hpaint|].
  rewrite Hall by discriminate. split; reflexivity.
Defined.

(** The loop of [__init__] over keys of which the first absent one is
    [key]. *)
Lemma draw_columns_first_absent (data : ChildDataFrame)
    (pre rest : list string) (key : string) (pic : QPicture) :
  DataFrame_aligned (data_frame data) →
  (∀ k, k ∈ pre → is_Some (df_columns (data_frame data) !! k)) →
  df_columns (data_frame data) !! key = None →
  for_each (LinePlotItem.draw_column data (df_index (data_frame data)))
    pic (pre ++ key :: rest) =
  Raise (ValueError ("Data key '" +:+ key +:+ "' not found in data frame.")).
Proof.
  intros Hwf Hpre Hkey. revert pic.
  induction pre as [|k pre IH]; intros pic.
  - simpl app. rewrite for_each_cons.
    by rewrite (draw_column_absent data _ pic key Hkey).
  - destruct (Hpre k) as [y Hy]; [by left|].
    simpl app. rewrite for_each_cons.
    rewrite (draw_column_present data pic k y Hy)
      by (by rewrite (Hwf k y Hy)).
    cbn [mbind Result_bind]. apply IH. intros k' Hk'. apply Hpre. by right.
Qed.

(** X7. When several requested keys are missing, the [ValueError] of the
    constructor names the first of them in the order of [data_keys]: the
    keys before it are columns, and later keys are not looked at. *)
Theorem line_item_first_unknown_column (data : ChildDataFrame) (style : Style)
    (marker : option string) (pre rest : list string) (key : string) :
  DataFrame_aligned (data_frame data) →
  data_keys data = pre ++ key :: rest →
  (∀ k, k ∈ pre → is_Some (df_columns (data_frame data) !! k)) →
  df_columns (data_frame data) !! key = None →
  LinePlotItem.__init__ data style marker =
  Raise (ValueError ("Data key '" +:+ key +:+ "' not found in data frame.")).
Proof.
  intros Hwf Hkeys Hpre Hkey. rewrite init_eq, Hkeys.
  by rewrite (draw_columns_first_absent data pre rest key _ Hwf Hpre Hkey).
Qed.

Lemma line_item_first_unknown_column_witness :
  DataFrame_aligned example_frame
  ∧ LinePlotItem.__init__
      {| data_frame := example_frame;
         data_keys := ["data"; "volume"; "data"; "price"] |}
      example_style None
    = Raise (ValueError "Data key 'volume' not found in data frame.").
Proof.
  assert (Hwf : DataFrame_aligned example_frame)
    by (apply (bool_decide_unpack _); vm_compute; exact I).
  split; [exact Hwf|].
  apply (line_item_first_unknown_column
           {| data_frame := example_frame;
              data_keys := ["data"; "volume"; "data"; "price"] |}
           example_style None ["data"] ["data"; "price"] "volume" Hwf).
  - reflexivity.
  - intros k Hk. apply list_elem_of_singleton in Hk as ->. by eexists.
  - reflexivity.
Defined.

(** X8. [paint] restores the transform only.  With a recognized marker
    the painter comes back with the marker pen and the marker brush
    instead of the pen and brush it was handed with; without one, pen and
    brush are untouched.  The saved states are as before in both cases. *)
Theorem line_paint_pen_brush `{QTransformOps QTransform}
    (data : ChildDataFrame) (style : Style) (marker : option string)
    (item : LinePlotItem.t) (p : QPainter QTransform) :
  LinePlotItem.__init__ data style marker = Ok item →
  ∃ p',
    LinePlotItem.paint item p = Ok p'
    ∧ transform p' = transform p
    ∧ saved p' = saved p
    ∧ (marker = Some "circle" ∨ marker = Some "o" →
       pen p' = mkPen (marker_color style) (Some (line_width style))
       ∧ brush p' = mkBrush (marker_color style))
    ∧ (marker ≠ Some "circle" → marker ≠ Some "o" →
       pen p' = pen p ∧ brush p' = brush p).
Proof.
  intros Hinit.
  destruct (decide (marker = Some "circle" ∨ marker = Some "o"))
    as [Hmarker|Hmarker].
  - eexists. split; [exact (paint_marked_eq _ _ _ _ p Hmarker Hinit)|].
    simpl. split; [done|]. split; [done|]. split; [done|].
    intros Hcircle Ho. destruct Hmarker; contradiction.
  - destruct (init_Ok_inv _ _ _ _ Hinit) as (_ & _ & Hdrawer & _).
    rewrite marker_unrecognized in Hdrawer by tauto.
    eexists. split; [exact (paint_unmarked_eq _ _ _ _ p Hinit Hdrawer)|].
    simpl. split; [done|]. split; [done|].
    split; [intros Hyes; contradiction|done].
Qed.

Lemma line_paint_pen_brush_witness :
  ∃ item p',
    LinePlotItem.__init__ example_line example_style (Some "o") = Ok item
    ∧ LinePlotItem.paint item example_painter = Ok p'
    ∧ pen example_painter = mkPen "k" None
    ∧ pen p' = mkPen "y" (Some 1%float)
    ∧ brush p' = mkBrush "y".
Proof.
  destruct (LinePlotItem.__init__ example_line example_style (Some "o"))
    as [item|e] eqn:Hinit; [|by vm_compute in Hinit].
  destruct (line_paint_pen_brush example_line example_style (Some "o") item
              example_painter Hinit) as (p' & Hpaint & _ & _ & Hmarked & _).
  destruct (Hmarked (or_intror eq_refl)) as [Hpen Hbrush].
  exists item, p'. split; [reflexivity|]. split; [exact Hpaint|].
  split; [reflexivity|]. split; [exact Hpen|exact Hbrush].
Defined.

(** X9. The number of primitives a paint call adds: one polyline per
    requested key, and with a recognized marker one ellipse per requested
    key and ordinal besides. *)
Theorem line_paint_count `{QTransformOps QTransform}
    (data : ChildDataFrame) (style : Style) (marker : option string)
    (item : LinePlotItem.t) (p : QPainter QTransform) :
  LinePlotItem.__init__ data style marker = Ok item →
  ∃ p',
    LinePlotItem.paint item p = Ok p'
    ∧ (marker = Some "circle" ∨ marker = Some "o" →
       length (painted p p') =
       length (data_keys data)
       + length (data_keys data) * length (df_index (data_frame data)))
    ∧ (marker ≠ Some "circle" → marker ≠ Some "o" →
       length (painted p p') = length (data_keys data)).
Proof.
  intros Hinit.
  destruct (init_Ok_inv _ _ _ _ Hinit) as (_ & _ & Hdrawer & Hcols).
  destruct (decide (marker = Some "circle" ∨ marker = Some "o"))
    as [Hmarker|Hmarker].
  - eexists. split; [exact (paint_marked_eq _ _ _ _ p Hmarker Hinit)|].
    unfold painted. simpl. rewrite drop_app_length. split.
    + intros _. rewrite length_app, !length_fmap.
      by rewrite (length_plotted_points data Hcols).
    + intros Hcircle Ho. destruct Hmarker; contradiction.
  - rewrite marker_unrecognized in Hdrawer by tauto.
    eexists. split; [exact (paint_unmarked_eq _ _ _ _ p Hinit Hdrawer)|].
    unfold painted. simpl. rewrite drop_app_length. split.
    + intros Hyes. contradiction.
    + intros _ _. apply length_fmap.
Qed.

Lemma line_paint_count_witness :
  ∃ item p',
    LinePlotItem.__init__ example_line example_style (Some "circle") = Ok item
    ∧ LinePlotItem.paint item example_painter = Ok p'
    ∧ length (painted example_painter p') = 3.
Proof.
  destruct (LinePlotItem.__init__ example_line example_style (Some "circle"))
    as [item|e] eqn:Hinit; [|by vm_compute in Hinit].
  destruct (line_paint_count example_line example_style (Some "circle") item
              example_painter Hinit) as (p' & Hpaint & Hmarked & _).
  exists item, p'. split; [reflexivity|]. split; [exact Hpaint|].
  rewrite (Hmarked (or_introl eq_refl)). reflexivity.
Defined.

(** X10. In a price and volume chart the bars line up: the body of a
    candlestick and the volume bar of the same ordinal, painted with the
    same style, have the same left edge and the same width, whichever way
    the candlestick points. *)
Theorem candle_and_volume_bar_aligned `{QTransformOps QTransform}
    (prices : PricesDataFrame) (volume : VolumeDataFrame) (style : Style)
    (p : QPainter QTransform) (i j : nat) (row : PriceRow) (v : float) :
  prices_rows prices !! i = Some row →
  volume_rows volume !! j = Some (row_t row, v) →
  ∃ body bar rbody rbar,
    painted p (CandlestickPricesItem.paint
                 (CandlestickPricesItem.__init__ prices style) p) !! (2 * i)
      = Some body
    ∧ painted p (CandlestickVolumeItem.paint
                   (CandlestickVolumeItem.__init__ volume style) p) !! j
      = Some bar
    ∧ drawn_shape body = Rect rbody
    ∧ drawn_shape bar = Rect rbar
    ∧ rect_left rbody = rect_left rbar
    ∧ rect_width rbody = rect_width rbar
    ∧ drawn_transform body = drawn_transform bar.
Proof.
  intros Hrow Hvol. rewrite paint_candles, paint_bars.
  destruct (lookup_bind_pairs
    (λ row, mkDrawn (Rect (candle_body_rect style row))
              (mkPen (candle_color style row) None)
              (mkBrush (candle_color style row))
              (transform_translate 0 0 (transform p)))
    (λ row, mkDrawn (Rect (candle_shadow_rect style row))
              (mkPen (candle_color style row) None)
              (mkBrush (candle_color style row))
              (transform_translate 0 0 (transform p)))
    (prices_rows prices) i) as [Hbody _].
  unfold candle_drawn. rewrite Hbody, Hrow, list_lookup_fmap, Hvol. simpl.
  eexists _, _, _, _. repeat split.
  all: unfold candle_body_rect; by destruct (gt _ _).
Qed.

Lemma candle_and_volume_bar_aligned_witness :
  ∃ body bar,
    painted example_painter
      (CandlestickPricesItem.paint
         (CandlestickPricesItem.__init__ example_prices example_style)
         example_painter) !! 2 = Some body
    ∧ painted example_painter
        (CandlestickVolumeItem.paint
           (CandlestickVolumeItem.__init__ example_volume example_style)
           example_painter) !! 1 = Some bar
    ∧ drawn_shape body = Rect (mkQRectF 0.75 1 0.5 1)
    ∧ drawn_shape bar = Rect (mkQRectF 0.75 0 0.5 2).
Proof.
  destruct (candle_and_volume_bar_aligned example_prices example_volume
              example_style example_painter 1 1
              {| row_t := 1; row_open := 2; row_close := 1;
                 row_high := 2.2; row_low := 0.9 |} 2e8%float
              eq_refl eq_refl)
    as (body & bar & rbody & rbar & Hbody & Hbar & _).
  exists body, bar. split; [exact Hbody|]. split; [exact Hbar|].
  injection Hbody as <-. injection Hbar as <-. split; reflexivity.
Defined.

(** ** FluentScrollBar *)

Section ScrollBarFacts.
Import FluentScrollBar.
Local Open Scope Z_scope.
Context `{QtSide W}.
Implicit Type s : Attrs * W.

Lemma run_bind_eq {A B : Type} (m : Run W A) (k : A → Run W B) s :
  (m ≫= k) s =
  match m s with
  | (Returned a, s') => k a s'
  | (Raised e, s') => (Raised e, s')
  end.
Proof. reflexivity. Qed.

Lemma preserves_bind {A B : Type} (P : Attrs → Prop) (m : Run W A)
    (k : A → Run W B) :
  preserves P m → (∀ a, preserves P (k a)) → preserves P (m ≫= k).
Proof.
  intros Hm Hk s HP. rewrite run_bind_eq. specialize (Hm s HP).
  destruct (m s) as [[a|e] s']; simpl in *; [by apply Hk|done].
Qed.

Lemma preserves_ret {A : Type} (P : Attrs → Prop) (a : A) :
  preserves P (mret a : Run W A).
Proof. by intros s. Qed.

Lemma preserves_attr {A : Type} (P : Attrs → Prop) (f : Attrs → A) :
  preserves P (attr f : Run W A).
Proof. by intros s. Qed.

Lemma preserves_qt_read {A : Type} (P : Attrs → Prop) (f : W → A) :
  preserves P (qt_read f : Run W A).
Proof. by intros s. Qed.

Lemma preserves_qt_call (P : Attrs → Prop) (f : W → W) :
  preserves P (qt_call f : Run W unit).
Proof. by intros s. Qed.

Lemma preserves_raise {A : Type} (P : Attrs → Prop) (e : Exc) :
  preserves P (raise e : Run W A).
Proof. by intros s. Qed.

Lemma preserves_read_isEnter (P : Attrs → Prop) :
  preserves P (read_isEnter : Run W bool).
Proof. intros s HP. unfold read_isEnter. by destruct (isEnter s.1). Qed.

Lemma preserves_truediv (P : Attrs → Prop) (a b : Z) :
  preserves P (truediv a b : Run W float).
Proof. intros s HP. unfold truediv. by destruct (decide (b = 0)). Qed.

Lemma preserves_int_of_float (P : Attrs → Prop) (f : float) :
  preserves P (int_of_float f : Run W Z).
Proof. intros s HP. unfold int_of_float. by destruct (Prim2SF f). Qed.

Lemma preserves_assign (P : Attrs → Prop) (f : Attrs → Attrs) :
  (∀ a, P a → P (f a)) → preserves P (assign f : Run W unit).
Proof. intros Hf s HP. by apply Hf. Qed.

Lemma preserves_emit_valueChanged (P : Attrs → Prop) (v : Z) :
  (∀ a, P a → P (add_emitted (valueChanged v) a)) →
  preserves P (emit_valueChanged v : Run W unit).
Proof.
  intros Hf s HP. unfold emit_valueChanged.
  destruct (in_int32 v); [by apply Hf|done].
Qed.

(** One step of a proof that a method keeps a property: through a
    sequence, a branch, or a primitive. *)
Ltac preserves_step :=
  first
    [ apply preserves_ret | apply preserves_attr | apply preserves_qt_read
    | apply preserves_qt_call | apply preserves_raise
    | apply preserves_read_isEnter | apply preserves_truediv
    | apply preserves_int_of_float
    | apply preserves_emit_valueChanged; intros ? ?
    | apply preserves_bind; [|intros ?]
    | apply preserves_assign; intros ? ?
    | match goal with
      | |- preserves _ (if ?b then _ else _) => destruct b
      | |- preserves _ (match ?o with Vertical => _ | Horizontal => _ end) =>
          destruct o
      end ].

(** The geometry methods assign no attribute. *)
Lemma adjustHandleSize_attrs (P : Attrs → Prop) : preserves P _adjustHandleSize.
Proof.
  unfold _adjustHandleSize, _grooveLength, maximum, minimum, orientation.
  repeat preserves_step.
Qed.

Lemma adjustHandlePos_attrs (P : Attrs → Prop) : preserves P _adjustHandlePos.
Proof.
  unfold _adjustHandlePos, _slideLength, _grooveLength, maximum, minimum,
    value, orientation.
  repeat preserves_step.
Qed.

(** Running the primitives in front of a continuation. *)
Lemma bind_attr {A B : Type} (f : Attrs → A) (k : A → Run W B) s :
  (attr f ≫= k) s = k (f s.1) s.
Proof. reflexivity. Qed.

Lemma bind_assign {B : Type} (f : Attrs → Attrs) (k : unit → Run W B) s :
  (assign f ≫= k) s = k tt (f s.1, s.2).
Proof. reflexivity. Qed.

Lemma bind_qt_read {A B : Type} (f : W → A) (k : A → Run W B) s :
  (qt_read f ≫= k) s = k (f s.2) s.
Proof. reflexivity. Qed.

Lemma bind_qt_call {B : Type} (f : W → W) (k : unit → Run W B) s :
  (qt_call f ≫= k) s = k tt (s.1, f s.2).
Proof. reflexivity. Qed.

Lemma run_ret {A : Type} (a : A) s : (mret a : Run W A) s = (Returned a, s).
Proof. reflexivity. Qed.

Lemma run_assign (f : Attrs → Attrs) s :
  (assign f : Run W unit) s = (Returned tt, (f s.1, s.2)).
Proof. reflexivity. Qed.

Lemma run_qt_call (f : W → W) s :
  (qt_call f : Run W unit) s = (Returned tt, (s.1, f s.2)).
Proof. reflexivity. Qed.

Ltac run_simpl :=
  repeat first
    [ rewrite bind_attr | rewrite bind_assign | rewrite bind_qt_read
    | rewrite bind_qt_call | rewrite run_ret | rewrite run_assign
    | rewrite run_qt_call ];
  cbn [fst snd].

(** What is left of the attributes after a method that ends with a
    geometry adjustment. *)
Lemma then_adjustHandlePos {A : Type} (m : Run W A) s :
  ((m ;; _adjustHandlePos) s).2.1 = (m s).2.1.
Proof.
  rewrite run_bind_eq. destruct (m s) as [[a|e] s']; [|done].
  exact (adjustHandlePos_attrs (λ a, a = s'.1) s' eq_refl).
Qed.

Lemma then_adjustHandleSize {A : Type} (m : Run W A) s :
  ((m ;; _adjustHandleSize) s).2.1 = (m s).2.1.
Proof.
  rewrite run_bind_eq. destruct (m s) as [[a|e] s']; [|done].
  exact (adjustHandleSize_attrs (λ a, a = s'.1) s' eq_refl).
Qed.

(** The setter of [val] in one equation: nothing for the current value;
    else the clamped value is assigned, and then either the signal is
    emitted and the handle moved, or the emit raises. *)
Lemma val_setter_eq (requested : Z) s :
  val_setter requested s =
  if decide (requested = _value s.1) then (Returned tt, s)
  else if in_int32 (Z.max (_minimum s.1) (Z.min requested (_maximum s.1)))
  then
    _adjustHandlePos
      (add_emitted
         (valueChanged (Z.max (_minimum s.1) (Z.min requested (_maximum s.1))))
         (set_value (Z.max (_minimum s.1) (Z.min requested (_maximum s.1))) s.1),
       s.2)
  else
    (Raised OverflowError,
     (set_value (Z.max (_minimum s.1) (Z.min requested (_maximum s.1))) s.1,
      s.2)).
Proof.
  unfold val_setter, value, minimum, maximum. run_simpl.
  destruct (decide (requested = _value s.1)); [by run_simpl|]. run_simpl.
  rewrite run_bind_eq. unfold emit_valueChanged, emit.
  destruct (in_int32 _); [by run_simpl|done].
Qed.

(** The attributes the setter of [val] leaves. *)
Lemma val_setter_attrs (requested : Z) s :
  (val_setter requested s).2.1 =
  if decide (requested = _value s.1) then s.1
  else if in_int32 (Z.max (_minimum s.1) (Z.min requested (_maximum s.1)))
  then
    add_emitted
      (valueChanged (Z.max (_minimum s.1) (Z.min requested (_maximum s.1))))
      (set_value (Z.max (_minimum s.1) (Z.min requested (_maximum s.1))) s.1)
  else set_value (Z.max (_minimum s.1) (Z.min requested (_maximum s.1))) s.1.
Proof.
  rewrite val_setter_eq.
  destruct (decide (requested = _value s.1)); [done|].
  destruct (in_int32 _); [|done].
  exact (adjustHandlePos_attrs (λ a, a = _) _ eq_refl).
Qed.

Lemma adjust_both_attrs s :
  ((_adjustHandleSize;; _adjustHandlePos) s).2.1 = s.1.
Proof.
  rewrite then_adjustHandlePos.
  exact (adjustHandleSize_attrs (λ a, a = s.1) s eq_refl).
Qed.

Lemma setValue_attrs (requested : Z) s :
  (setValue requested s).2.1 = (val_setter requested s).2.1.
Proof.
  unfold setValue. rewrite run_bind_eq.
  destruct (val_setter requested s) as [[a|e] s']; [|done].
  apply adjust_both_attrs.
Qed.

(** The attributes [setValue] leaves, in one equation. *)
Lemma setValue_eq (requested : Z) s :
  (setValue requested s).2.1 =
  if decide (requested = _value s.1) then s.1
  else if in_int32 (Z.max (_minimum s.1) (Z.min requested (_maximum s.1)))
  then
    add_emitted
      (valueChanged (Z.max (_minimum s.1) (Z.min requested (_maximum s.1))))
      (set_value (Z.max (_minimum s.1) (Z.min requested (_maximum s.1))) s.1)
  else set_value (Z.max (_minimum s.1) (Z.min requested (_maximum s.1))) s.1.
Proof. by rewrite setValue_attrs, val_setter_attrs. Qed.

(** [setValue] with a new value that a C [int] cannot hold raises. *)
Lemma setValue_overflow (requested : Z) s :
  requested ≠ _value s.1 →
  in_int32 (Z.max (_minimum s.1) (Z.min requested (_maximum s.1))) = false →
  (setValue requested s).1 = Raised OverflowError.
Proof.
  intros Hnew Hout. unfold setValue. rewrite run_bind_eq, val_setter_eq.
  destruct (decide (requested = _value s.1)); [done|]. by rewrite Hout.
Qed.

Lemma setMinimum_eq (min : Z) s :
  setMinimum min s =
  (Returned tt,
   (if decide (min = _minimum s.1) then s.1
    else add_emitted (rangeChanged (min, _maximum s.1)) (set_minimum min s.1),
    s.2)).
Proof.
  unfold setMinimum, minimum, maximum, emit. run_simpl.
  destruct (decide (min = _minimum s.1)); run_simpl; [by destruct s|done].
Qed.

Lemma setMaximum_eq (max : Z) s :
  setMaximum max s =
  (Returned tt,
   (if decide (max = _maximum s.1) then s.1
    else add_emitted (rangeChanged (_minimum s.1, max)) (set_maximum max s.1),
    s.2)).
Proof.
  unfold setMaximum, minimum, maximum, emit. run_simpl.
  destruct (decide (max = _maximum s.1)); run_simpl; [by destruct s|done].
Qed.

Lemma run_bind_assoc {A B C : Type} (m : Run W A) (k : A → Run W B)
    (k' : B → Run W C) s :
  ((m ≫= k) ≫= k') s = (m ≫= (λ a, k a ≫= k')) s.
Proof. rewrite !run_bind_eq. by destruct (m s) as [[a|e] s']. Qed.

(** A geometry adjustment followed by a signal: the signal is emitted
    when the adjustment did not raise. *)
Lemma adjust_then_emit (sig : Signal) s :
  (_adjustHandleSize;; _adjustHandlePos;; emit sig) s =
  match (_adjustHandleSize;; _adjustHandlePos) s with
  | (Returned _, s') => (Returned tt, (add_emitted sig s.1, s'.2))
  | (Raised e, s') => (Raised e, (s.1, s'.2))
  end.
Proof.
  rewrite <- (run_bind_assoc _adjustHandleSize (λ _, _adjustHandlePos)
                (λ _, emit sig)).
  rewrite run_bind_eq. pose proof (adjust_both_attrs s) as Hattrs.
  destruct ((_adjustHandleSize;; _adjustHandlePos) s) as [[[]|e] [a' w']];
    cbn [fst snd] in *; subst a'; reflexivity.
Qed.

(** The range test of [setRange]. *)
Lemma setRange_rejects (min max : Z) s :
  min > max ∨ (min = _minimum s.1 ∧ max = _maximum s.1) →
  setRange min max s = (Returned tt, s).
Proof.
  intros Hrej. unfold setRange, minimum, maximum. run_simpl.
  destruct Hrej as [Hgt|[Hmin Hmax]].
  - by rewrite bool_decide_eq_true_2.
  - rewrite (bool_decide_eq_true_2 (min = _)), (bool_decide_eq_true_2 (max = _))
      by done.
    by rewrite orb_true_r.
Qed.

Lemma setRange_accepts (min max : Z) s :
  min ≤ max → ¬ (min = _minimum s.1 ∧ max = _maximum s.1) →
  setRange min max s =
  (_adjustHandleSize;; _adjustHandlePos;; emit (rangeChanged (min, max)))
    (setMaximum max (setMinimum min s).2).2.
Proof.
  intros Hle Hnew. unfold setRange at 1. unfold minimum, maximum. run_simpl.
  rewrite (bool_decide_eq_false_2 (min > max)) by lia. cbn [orb].
  replace (bool_decide (min = _minimum s.1) && bool_decide (max = _maximum s.1))
    with false.
  2:{ symmetry. apply andb_false_iff.
      destruct (decide (min = _minimum s.1)) as [Hmin|Hmin].
      - right. apply bool_decide_eq_false_2. tauto.
      - left. by apply bool_decide_eq_false_2. }
  rewrite run_bind_eq, setMinimum_eq. cbn [fst snd].
  rewrite run_bind_eq, setMaximum_eq. cbn [fst snd].
  reflexivity.
Qed.

Ltac unfold_methods :=
  unfold perform, setValue, val_setter, _onPageUp, _onPageDown,
    _onValueChanged, setMinimum, setMaximum, setRange, setPageStep,
    setSingleStep, setSliderDown, setForceHidden, expand, collapse,
    enterEvent, leaveEvent, showEvent, resizeEvent, mousePressEvent,
    mouseReleaseEvent, mouseMoveEvent, _onOpacityAniValueChanged,
    _adjustHandleSize, _adjustHandlePos, _isSlideResion, _slideLength,
    _grooveLength, value, minimum, maximum, orientation, pageStep,
    singleStep, emit.

(** X11. [setValue] with a value other than the current one, on a bar
    whose minimum does not exceed its maximum: the new value is the
    requested one clamped into the range and the range is untouched,
    whatever happens afterwards.  When the new value fits a C [int],
    [valueChanged] is emitted once, with the new value; when it does not,
    the emit raises [OverflowError] after the value is assigned and
    nothing is emitted. *)
Theorem scrollbar_setValue_clamps (requested : Z) s :
  _minimum s.1 ≤ _maximum s.1 →
  requested ≠ _value s.1 →
  _value (setValue requested s).2.1 =
    Z.max (_minimum s.1) (Z.min requested (_maximum s.1))
  ∧ _minimum s.1 ≤ _value (setValue requested s).2.1 ≤ _maximum s.1
  ∧ (_minimum s.1 ≤ requested ≤ _maximum s.1 →
     _value (setValue requested s).2.1 = requested)
  ∧ (requested < _minimum s.1 →
     _value (setValue requested s).2.1 = _minimum s.1)
  ∧ (_maximum s.1 < requested →
     _value (setValue requested s).2.1 = _maximum s.1)
  ∧ _minimum (setValue requested s).2.1 = _minimum s.1
  ∧ _maximum (setValue requested s).2.1 = _maximum s.1
  ∧ (in_int32 (_value (setValue requested s).2.1) = true →
     emitted (setValue requested s).2.1 =
       emitted s.1 ++ [valueChanged (_value (setValue requested s).2.1)])
  ∧ (in_int32 (_value (setValue requested s).2.1) = false →
     emitted (setValue requested s).2.1 = emitted s.1
     ∧ (setValue requested s).1 = Raised OverflowError).
Proof.
  intros Hrange Hnew.
  pose proof (setValue_overflow requested s Hnew) as Hraise.
  rewrite setValue_eq.
  destruct (decide (requested = _value s.1)); [done|].
  destruct (in_int32 (Z.max _ _)) eqn:Hfits; simpl; rewrite ?Hfits.
  all: split; [done|]; split; [lia|]; split; [lia|]; split; [lia|].
  all: split; [lia|]; split; [done|]; split; [done|].
  - split; [done|]. intros Hno. discriminate Hno.
  - split; [intros Hyes; discriminate Hyes|].
    intros _. split; [done|]. by apply Hraise.
Qed.

(** The page slots at the ends of the range. *)
Lemma page_down_at_maximum s :
  _minimum s.1 ≤ _maximum s.1 → 1 ≤ _pageStep s.1 →
  _value s.1 = _maximum s.1 →
  (_onPageDown s).2.1 =
    (if in_int32 (_value s.1)
     then add_emitted (valueChanged (_value s.1)) (set_value (_value s.1) s.1)
     else set_value (_value s.1) s.1)
  ∧ (in_int32 (_value s.1) = false → (_onPageDown s).1 = Raised OverflowError).
Proof.
  intros Hrange Hstep Hat.
  assert (Hclamp : Z.max (_minimum s.1)
                     (Z.min (_value s.1 + _pageStep s.1) (_maximum s.1))
                   = _value s.1) by lia.
  unfold _onPageDown, value, pageStep. run_simpl. split.
  - rewrite setValue_eq. destruct (decide (_ = _)); [lia|]. by rewrite Hclamp.
  - intros Hout. apply setValue_overflow; [lia|]. by rewrite Hclamp.
Qed.

Lemma page_up_at_minimum s :
  _minimum s.1 ≤ _maximum s.1 → 1 ≤ _pageStep s.1 →
  _value s.1 = _minimum s.1 →
  (_onPageUp s).2.1 =
    (if in_int32 (_value s.1)
     then add_emitted (valueChanged (_value s.1)) (set_value (_value s.1) s.1)
     else set_value (_value s.1) s.1)
  ∧ (in_int32 (_value s.1) = false → (_onPageUp s).1 = Raised OverflowError).
Proof.
  intros Hrange Hstep Hat.
  assert (Hclamp : Z.max (_minimum s.1)
                     (Z.min (_value s.1 - _pageStep s.1) (_maximum s.1))
                   = _value s.1) by lia.
  unfold _onPageUp, value, pageStep. run_simpl. split.
  - rewrite setValue_eq. destruct (decide (_ = _)); [lia|]. by rewrite Hclamp.
  - intros Hout. apply setValue_overflow; [lia|]. by rewrite Hclamp.
Qed.

(** X12. Paging at the end of the range: [_onPageDown] at the maximum
    and [_onPageUp] at the minimum leave the value where it is and still
    emit [valueChanged] with it when it fits a C [int]; when it does not,
    the slot raises [OverflowError] and emits nothing. *)
Theorem scrollbar_page_at_bounds s :
  _minimum s.1 ≤ _maximum s.1 →
  1 ≤ _pageStep s.1 →
  (_value s.1 = _maximum s.1 →
   _value (_onPageDown s).2.1 = _value s.1
   ∧ (in_int32 (_value s.1) = true →
      emitted (_onPageDown s).2.1 = emitted s.1 ++ [valueChanged (_value s.1)])
   ∧ (in_int32 (_value s.1) = false →
      emitted (_onPageDown s).2.1 = emitted s.1
      ∧ (_onPageDown s).1 = Raised OverflowError))
  ∧ (_value s.1 = _minimum s.1 →
     _value (_onPageUp s).2.1 = _value s.1
     ∧ (in_int32 (_value s.1) = true →
        emitted (_onPageUp s).2.1 = emitted s.1 ++ [valueChanged (_value s.1)])
     ∧ (in_int32 (_value s.1) = false →
        emitted (_onPageUp s).2.1 = emitted s.1
        ∧ (_onPageUp s).1 = Raised OverflowError)).
Proof.
  intros Hrange Hstep. split; intros Hat.
  - destruct (page_down_at_maximum s Hrange Hstep Hat) as [-> Hraise].
    destruct (in_int32 (_value s.1)); simpl.
    + split; [done|]. split; [done|]. intros Hno. discriminate Hno.
    + split; [done|]. split; [intros Hyes; discriminate Hyes|].
      intros _. split; [done|]. by apply Hraise.
  - destruct (page_up_at_minimum s Hrange Hstep Hat) as [-> Hraise].
    destruct (in_int32 (_value s.1)); simpl.
    + split; [done|]. split; [done|]. intros Hno. discriminate Hno.
    + split; [done|]. split; [intros Hyes; discriminate Hyes|].
      intros _. split; [done|]. by apply Hraise.
Qed.

(** [setRange] assigns the bounds and nothing else but the signal log. *)
Lemma setRange_value (v : Z) (min max : Z) :
  preserves (λ a, _value a = v) (setRange min max : Run W unit).
Proof. unfold_methods. repeat preserves_step; done. Qed.

(** X13. [setRange] never moves the value: it can leave it outside the
    new range, and a later [setValue] with that same value changes
    nothing and emits nothing, so the value stays outside. *)
Theorem scrollbar_setRange_keeps_value (min max : Z) s :
  min ≤ max →
  _value s.1 < min →
  _value (setRange min max s).2.1 = _value s.1
  ∧ _value (setRange min max s).2.1 < _minimum (setRange min max s).2.1
  ∧ (setValue (_value s.1) (setRange min max s).2).2.1
    = (setRange min max s).2.1.
Proof.
  intros Hle Hbelow.
  pose proof (setRange_value (_value s.1) min max s eq_refl) as Hvalue.
  split; [exact Hvalue|]. split.
  2:{ rewrite setValue_eq. rewrite Hvalue. by rewrite decide_True. }
  rewrite Hvalue.
  cut (_minimum (setRange min max s).2.1 = min); [lia|].
  destruct (decide (min = _minimum s.1 ∧ max = _maximum s.1))
    as [[Hmin Hmax]|Hnew].
  - by rewrite setRange_rejects by (right; done).
  - rewrite (setRange_accepts min max s Hle Hnew), adjust_then_emit.
    rewrite setMinimum_eq, setMaximum_eq. cbn [fst snd].
    destruct ((_adjustHandleSize;; _adjustHandlePos) _) as [[[]|e] s'];
      cbn [fst snd]; repeat case_decide; simpl; congruence.
Qed.


(** X14. [setRange] with an accepted range (minimum not above maximum,
    not the current range) assigns both bounds and emits [rangeChanged]
    once for each bound that changes and once more at the end, the last
    only if the handle could be adjusted.  The signal of a changed minimum
    carries the old maximum, so moving the range upwards announces a
    range whose minimum exceeds its maximum first. *)
Theorem scrollbar_setRange_signals (min max : Z) s :
  min ≤ max →
  ¬ (min = _minimum s.1 ∧ max = _maximum s.1) →
  _minimum (setRange min max s).2.1 = min
  ∧ _maximum (setRange min max s).2.1 = max
  ∧ emitted (setRange min max s).2.1 =
      emitted s.1
      ++ (if decide (min = _minimum s.1) then []
          else [rangeChanged (min, _maximum s.1)])
      ++ (if decide (max = _maximum s.1) then []
          else [rangeChanged (min, max)])
      ++ match (setRange min max s).1 with
         | Returned _ => [rangeChanged (min, max)]
         | Raised _ => []
         end.
Proof.
  intros Hle Hnew.
  rewrite (setRange_accepts min max s Hle Hnew), adjust_then_emit.
  rewrite setMinimum_eq, setMaximum_eq. cbn [fst snd].
  destruct ((_adjustHandleSize;; _adjustHandlePos) _) as [[[]|e] s'];
    cbn [fst snd];
    destruct (decide (min = _minimum s.1)) as [Hmin|Hmin]; simpl;
    destruct (decide (max = _maximum s.1)) as [Hmax|Hmax]; simpl;
    try tauto;
    rewrite ?app_nil_r, <- ?app_assoc; simpl;
    rewrite <- ?Hmin, <- ?Hmax; done.
Qed.

(** Every operation but the release of the mouse keeps a set pressed
    flag. *)
Lemma perform_keeps_pressed (op : Op) :
  op ≠ EventMouseRelease →
  preserves (λ a, _isPressed a = true) (perform op : Run W unit).
Proof.
  intros Hop. destruct op; try done; unfold_methods;
    repeat preserves_step; done.
Qed.

(** X15. The pressed flag is cleared by [mouseReleaseEvent] alone:
    [setSliderDown] sets it whichever argument it is given, and no other
    call or event clears it once it is set. *)
Theorem scrollbar_pressed_flag (op : Op) (isDown : bool) s :
  _isPressed (setSliderDown isDown s).2.1 = true
  ∧ (isSliderDown (setSliderDown isDown s).2).1 = Returned true
  ∧ emitted (setSliderDown isDown s).2.1 =
      emitted s.1 ++ [if isDown then sliderPressed else sliderReleased]
  ∧ (op ≠ EventMouseRelease → _isPressed s.1 = true →
     _isPressed (perform op s).2.1 = true)
  ∧ _isPressed (mouseReleaseEvent s).2.1 = false.
Proof.
  split; [by destruct isDown|]. split; [by destruct isDown|].
  split; [by destruct isDown|]. split; [|done].
  intros Hop Hpressed. exact (perform_keeps_pressed op Hop s Hpressed).
Qed.

(** Before the first enter or leave event. *)
Lemma expand_without_isEnter s :
  isEnter s.1 = None → _isExpanded s.1 = false →
  expand s = (Raised (AttributeError "isEnter"), s).
Proof.
  intros Hnone Hcollapsed. unfold expand. run_simpl. rewrite Hcollapsed.
  rewrite run_bind_eq, run_bind_eq. unfold read_isEnter. by rewrite Hnone.
Qed.

Lemma collapse_collapsed s :
  _isExpanded s.1 = false → collapse s = (Returned tt, s).
Proof.
  intros Hcollapsed. unfold collapse. run_simpl. rewrite Hcollapsed.
  cbn [negb]. rewrite run_bind_eq. by run_simpl.
Qed.

Lemma perform_keeps_no_isEnter (op : Op) :
  op ≠ EventEnter → op ≠ EventLeave →
  preserves (λ a, isEnter a = None ∧ _isExpanded a = false)
    (perform op : Run W unit).
Proof.
  intros Henter Hleave. destruct op; try done.
  9:{ intros s [Hnone Hcollapsed]. cbn [perform].
      by rewrite expand_without_isEnter. }
  9:{ intros s [Hnone Hcollapsed]. cbn [perform].
      by rewrite collapse_collapsed. }
  all: unfold_methods; repeat preserves_step; done.
Qed.

Lemma perform_all_preserves (P : Attrs → Prop) (allowed : Op → Prop)
    (ops : list Op) s :
  (∀ op, allowed op → preserves P (perform op : Run W unit)) →
  Forall allowed ops → P s.1 → P (perform_all ops s).1.
Proof.
  intros Hstep Hops. revert s.
  induction Hops as [|op ops Hop _ IH]; intros s HP; [done|].
  apply IH. by apply Hstep.
Qed.

(** X16. Until the first enter or leave event the attribute [isEnter]
    does not exist ([__init__] assigns [_isEnter]): whatever else is
    called on a fresh scroll bar, [expand] raises [AttributeError] and
    changes nothing, while [collapse] returns without doing anything. *)
Theorem scrollbar_expand_before_enter (orient : Orientation) (w : W)
    (ops : list Op) :
  Forall (λ op, op ≠ EventEnter ∧ op ≠ EventLeave) ops →
  expand (perform_all ops (__init__ orient, w))
    = (Raised (AttributeError "isEnter"), perform_all ops (__init__ orient, w))
  ∧ collapse (perform_all ops (__init__ orient, w))
    = (Returned tt, perform_all ops (__init__ orient, w)).
Proof.
  intros Hops.
  destruct (perform_all_preserves
              (λ a, isEnter a = None ∧ _isExpanded a = false)
              (λ op, op ≠ EventEnter ∧ op ≠ EventLeave) ops
              (__init__ orient, w)) as [Hnone Hcollapsed]; [|done|done|].
  { intros op [Henter Hleave]. by apply perform_keeps_no_isEnter. }
  split; [by apply expand_without_isEnter|by apply collapse_collapsed].
Qed.

Lemma perform_keeps_steps (op : Op) (orient : Orientation) (padding : Z) :
  preserves (λ a, 1 ≤ _pageStep a ∧ 1 ≤ _singleStep a
                  ∧ _padding a = padding ∧ _orientation a = orient)
    (perform op : Run W unit).
Proof.
  destruct op.
  5,6: intros s HP; cbn [perform]; unfold setPageStep, setSingleStep;
       case_bool_decide; [rewrite run_assign; simpl; intuition lia|done].
  all: unfold_methods; repeat preserves_step; done.
Qed.

(** X17. Whatever is called on a scroll bar and whatever events reach
    it, the page step and the single step stay at least 1 (steps below 1
    are ignored by their setters), and the padding and the orientation
    stay what [__init__] made them. *)
Theorem scrollbar_steps_invariant (orient : Orientation) (w : W)
    (ops : list Op) :
  1 ≤ _pageStep (perform_all ops (__init__ orient, w)).1
  ∧ 1 ≤ _singleStep (perform_all ops (__init__ orient, w)).1
  ∧ _padding (perform_all ops (__init__ orient, w)).1 = 14
  ∧ _orientation (perform_all ops (__init__ orient, w)).1 = orient.
Proof.
  apply (perform_all_preserves
           (λ a, 1 ≤ _pageStep a ∧ 1 ≤ _singleStep a
                 ∧ _padding a = 14 ∧ _orientation a = orient)
           (λ _, True) ops (__init__ orient, w)).
  - intros op _. apply perform_keeps_steps.
  - by apply Forall_true.
  - simpl. repeat split; lia.
Qed.

(** [setValue] keeps a value that is in the range in the range, and the
    range as it is. *)
Lemma setValue_in_range (lo hi requested : Z) :
  preserves (λ a, _minimum a = lo ∧ _maximum a = hi ∧ lo ≤ _value a ≤ hi)
    (setValue requested : Run W unit).
Proof.
  intros s (Hlo & Hhi & Hin). rewrite setValue_eq.
  destruct (decide (requested = _value s.1)); [done|].
  destruct (in_int32 _); simpl; lia.
Qed.

Lemma val_setter_in_range (lo hi requested : Z) :
  preserves (λ a, _minimum a = lo ∧ _maximum a = hi ∧ lo ≤ _value a ≤ hi)
    (val_setter requested : Run W unit).
Proof.
  intros s (Hlo & Hhi & Hin). rewrite val_setter_attrs.
  destruct (decide (requested = _value s.1)); [done|].
  destruct (in_int32 _); simpl; lia.
Qed.

Lemma perform_keeps_in_range (op : Op) (lo hi : Z) :
  sets_range op = false →
  preserves (λ a, _minimum a = lo ∧ _maximum a = hi ∧ lo ≤ _value a ≤ hi)
    (perform op : Run W unit).
Proof.
  intros Hop. destruct op; try done; cbn [perform].
  all: try apply setValue_in_range; try apply val_setter_in_range.
  all: unfold _onPageUp, _onPageDown, _onValueChanged, setPageStep,
         setSingleStep, setSliderDown, setForceHidden, expand, collapse,
         enterEvent, leaveEvent, showEvent, resizeEvent, mousePressEvent,
         mouseReleaseEvent, mouseMoveEvent, _onOpacityAniValueChanged,
         _adjustHandleSize, _adjustHandlePos, _isSlideResion, _slideLength,
         _grooveLength, value, minimum, maximum, orientation, pageStep,
         singleStep, emit.
  all: repeat first [apply setValue_in_range | preserves_step]; done.
Qed.

(** X18. A value inside the range stays inside: as long as the range is
    not assigned ([setMinimum], [setMaximum], [setRange]), no sequence of
    calls and events (value setters, paging, mouse presses and moves
    among them) takes the value out of the range or changes the range. *)
Theorem scrollbar_value_stays_in_range (ops : list Op) s :
  Forall (λ op, sets_range op = false) ops →
  _minimum s.1 ≤ _value s.1 ≤ _maximum s.1 →
  _minimum (perform_all ops s).1 = _minimum s.1
  ∧ _maximum (perform_all ops s).1 = _maximum s.1
  ∧ _minimum s.1 ≤ _value (perform_all ops s).1 ≤ _maximum s.1.
Proof.
  intros Hops Hin.
  apply (perform_all_preserves
           (λ a, _minimum a = _minimum s.1 ∧ _maximum a = _maximum s.1
                 ∧ _minimum s.1 ≤ _value a ≤ _maximum s.1)
           (λ op, sets_range op = false) ops s); [|done|done].
  intros op Hop. by apply perform_keeps_in_range.
Qed.

(** X19. Paging up and then down again comes back to the value it
    started from when the page above is inside the range, also when an
    emit raises on the way; [valueChanged] is emitted for each of the two
    values that fits a C [int], and for no other. *)
Theorem scrollbar_page_round_trip s :
  1 ≤ _pageStep s.1 →
  _minimum s.1 ≤ _value s.1 - _pageStep s.1 →
  _value s.1 ≤ _maximum s.1 →
  _value (_onPageUp s).2.1 = _value s.1 - _pageStep s.1
  ∧ _value (_onPageDown (_onPageUp s).2).2.1 = _value s.1
  ∧ emitted (_onPageDown (_onPageUp s).2).2.1 =
      emitted s.1
      ++ (if in_int32 (_value s.1 - _pageStep s.1)
          then [valueChanged (_value s.1 - _pageStep s.1)] else [])
      ++ (if in_int32 (_value s.1) then [valueChanged (_value s.1)] else []).
Proof.
  intros Hstep Hlo Hhi.
  assert (Hup : (_onPageUp s).2.1 =
    if in_int32 (_value s.1 - _pageStep s.1)
    then add_emitted (valueChanged (_value s.1 - _pageStep s.1))
           (set_value (_value s.1 - _pageStep s.1) s.1)
    else set_value (_value s.1 - _pageStep s.1) s.1).
  { unfold _onPageUp, value, pageStep. run_simpl. rewrite setValue_eq.
    destruct (decide (_ = _)); [lia|].
    by replace (Z.max _ _) with (_value s.1 - _pageStep s.1) by lia. }
  assert (Hattrs : _value (_onPageUp s).2.1 = _value s.1 - _pageStep s.1
                   ∧ _pageStep (_onPageUp s).2.1 = _pageStep s.1
                   ∧ _minimum (_onPageUp s).2.1 = _minimum s.1
                   ∧ _maximum (_onPageUp s).2.1 = _maximum s.1).
  { rewrite Hup. by destruct (in_int32 _). }
  destruct Hattrs as (Hv & Hp & Hmin & Hmax).
  assert (Hdown : (_onPageDown (_onPageUp s).2).2.1 =
    if in_int32 (_value s.1)
    then add_emitted (valueChanged (_value s.1))
           (set_value (_value s.1) (_onPageUp s).2.1)
    else set_value (_value s.1) (_onPageUp s).2.1).
  { unfold _onPageDown at 1. unfold value, pageStep. run_simpl.
    rewrite setValue_eq, Hv, Hp, Hmin, Hmax.
    destruct (decide (_ = _)); [lia|].
    by replace (Z.max _ _) with (_value s.1) by lia. }
  split; [exact Hv|]. rewrite Hdown, Hup.
  destruct (in_int32 (_value s.1)), (in_int32 (_value s.1 - _pageStep s.1));
    simpl; rewrite ?app_nil_r, <- ?app_assoc; done.
Qed.

(** X20. A mouse press on the handle itself records the press and its
    position and does nothing else: the value is not changed and
    [sliderPressed] is not emitted. *)
Theorem scrollbar_press_on_handle (pos : QPoint) s :
  childAt_is_handle pos (super_mousePressEvent pos s.2) = true →
  mousePressEvent pos s =
  (Returned tt,
   (set_pressedPos pos (set_isPressed true s.1), super_mousePressEvent pos s.2)).
Proof.
  intros Hhit. unfold mousePressEvent. run_simpl. rewrite Hhit.
  rewrite run_bind_eq. by run_simpl.
Qed.
End ScrollBarFacts.

Lemma scrollbar_setValue_clamps_witness :
  (FluentScrollBar._minimum FluentScrollBar.example_bar_ranged.1
   ≤ FluentScrollBar._maximum FluentScrollBar.example_bar_ranged.1)%Z
  ∧ 5000%Z ≠ FluentScrollBar._value FluentScrollBar.example_bar_ranged.1
  ∧ FluentScrollBar._value
      (FluentScrollBar.setValue 5000 FluentScrollBar.example_bar_ranged).2.1
    = 1000%Z.
Proof.
  assert (Hrange :
    (FluentScrollBar._minimum FluentScrollBar.example_bar_ranged.1
     ≤ FluentScrollBar._maximum FluentScrollBar.example_bar_ranged.1)%Z)
    by (by vm_compute).
  assert (Hnew :
    5000%Z ≠ FluentScrollBar._value FluentScrollBar.example_bar_ranged.1)
    by (by vm_compute).
  split; [exact Hrange|]. split; [exact Hnew|].
  destruct (scrollbar_setValue_clamps 5000 FluentScrollBar.example_bar_ranged
              Hrange Hnew) as (Hvalue & _).
  rewrite Hvalue. reflexivity.
Defined.

(** On a bar of range 0 to 3000000000, [setValue(2147483648)] assigns
    the value and raises at the emit: nothing is emitted. *)
Example setValue_overflow_example :
  (FluentScrollBar.setValue 2147483648 FluentScrollBar.example_bar_wide).1
  = FluentScrollBar.Raised FluentScrollBar.OverflowError
  ∧ FluentScrollBar._value
      (FluentScrollBar.setValue 2147483648 FluentScrollBar.example_bar_wide).2.1
    = 2147483648%Z
  ∧ FluentScrollBar.emitted
      (FluentScrollBar.setValue 2147483648 FluentScrollBar.example_bar_wide).2.1
    = FluentScrollBar.emitted FluentScrollBar.example_bar_wide.1.
Proof. by vm_compute. Qed.

Lemma scrollbar_page_at_bounds_witness :
  (FluentScrollBar._minimum (FluentScrollBar.example_bar_at 1000).1
   ≤ FluentScrollBar._maximum (FluentScrollBar.example_bar_at 1000).1)%Z
  ∧ (1 ≤ FluentScrollBar._pageStep (FluentScrollBar.example_bar_at 1000).1)%Z
  ∧ FluentScrollBar.emitted
      (FluentScrollBar._onPageDown (FluentScrollBar.example_bar_at 1000)).2.1
    = [ FluentScrollBar.rangeChanged (0, 1000)%Z;
        FluentScrollBar.rangeChanged (0, 1000)%Z;
        FluentScrollBar.valueChanged 1000;
        FluentScrollBar.valueChanged 1000 ].
Proof.
  assert (Hrange :
    (FluentScrollBar._minimum (FluentScrollBar.example_bar_at 1000).1
     ≤ FluentScrollBar._maximum (FluentScrollBar.example_bar_at 1000).1)%Z)
    by (by vm_compute).
  assert (Hstep :
    (1 ≤ FluentScrollBar._pageStep (FluentScrollBar.example_bar_at 1000).1)%Z)
    by (by vm_compute).
  split; [exact Hrange|]. split; [exact Hstep|].
  destruct (scrollbar_page_at_bounds (FluentScrollBar.example_bar_at 1000)
              Hrange Hstep) as [Hdown _].
  destruct (Hdown eq_refl) as (_ & Hemitted & _).
  rewrite (Hemitted eq_refl). reflexivity.
Defined.

Lemma scrollbar_setRange_keeps_value_witness :
  (10 ≤ 20)%Z
  ∧ (FluentScrollBar._value FluentScrollBar.example_bar.1 < 10)%Z
  ∧ FluentScrollBar._value
      (FluentScrollBar.setRange 10 20 FluentScrollBar.example_bar).2.1 = 0%Z
  ∧ FluentScrollBar._minimum
      (FluentScrollBar.setRange 10 20 FluentScrollBar.example_bar).2.1 = 10%Z.
Proof.
  assert (Hle : (10 ≤ 20)%Z) by lia.
  assert (Hbelow : (FluentScrollBar._value FluentScrollBar.example_bar.1 < 10)%Z)
    by (by vm_compute).
  split; [exact Hle|]. split; [exact Hbelow|].
  destruct (scrollbar_setRange_keeps_value 10 20 FluentScrollBar.example_bar
              Hle Hbelow) as (Hvalue & _ & _).
  split; [rewrite Hvalue; reflexivity|reflexivity].
Defined.

Lemma scrollbar_setRange_signals_witness :
  (10 ≤ 20)%Z
  ∧ ¬ (10%Z = FluentScrollBar._minimum FluentScrollBar.example_bar.1
       ∧ 20%Z = FluentScrollBar._maximum FluentScrollBar.example_bar.1)
  ∧ FluentScrollBar.emitted
      (FluentScrollBar.setRange 10 20 FluentScrollBar.example_bar).2.1
    = [ FluentScrollBar.rangeChanged (10, 0)%Z;
        FluentScrollBar.rangeChanged (10, 20)%Z;
        FluentScrollBar.rangeChanged (10, 20)%Z ].
Proof.
  assert (Hle : (10 ≤ 20)%Z) by lia.
  assert (Hnew :
    ¬ (10%Z = FluentScrollBar._minimum FluentScrollBar.example_bar.1
       ∧ 20%Z = FluentScrollBar._maximum FluentScrollBar.example_bar.1))
    by (intros [Hmin _]; by vm_compute in Hmin).
  split; [exact Hle|]. split; [exact Hnew|].
  destruct (scrollbar_setRange_signals 10 20 FluentScrollBar.example_bar
              Hle Hnew) as (_ & _ & Hemitted).
  rewrite Hemitted. reflexivity.
Defined.

Lemma scrollbar_expand_before_enter_witness :
  Forall (λ op, op ≠ FluentScrollBar.EventEnter
                ∧ op ≠ FluentScrollBar.EventLeave)
    [FluentScrollBar.CallSetRange 0 1000; FluentScrollBar.SlotPageDown]
  ∧ (FluentScrollBar.expand
       (FluentScrollBar.perform_all
          [FluentScrollBar.CallSetRange 0 1000; FluentScrollBar.SlotPageDown]
          FluentScrollBar.example_bar)).1
    = FluentScrollBar.Raised (FluentScrollBar.AttributeError "isEnter").
Proof.
  assert (Hops :
    Forall (λ op, op ≠ FluentScrollBar.EventEnter
                  ∧ op ≠ FluentScrollBar.EventLeave)
      [FluentScrollBar.CallSetRange 0 1000; FluentScrollBar.SlotPageDown])
    by (repeat (constructor; [split; discriminate|]); constructor).
  split; [exact Hops|].
  destruct (scrollbar_expand_before_enter FluentScrollBar.Vertical
              FluentScrollBar.example_sizes _ Hops) as [Hexpand _].
  unfold FluentScrollBar.example_bar. rewrite Hexpand. reflexivity.
Defined.

Lemma scrollbar_value_stays_in_range_witness :
  Forall (λ op, FluentScrollBar.sets_range op = false)
    [ FluentScrollBar.CallSetValue 5000; FluentScrollBar.SlotPageUp;
      FluentScrollBar.EventMousePress (FluentScrollBar.mkQPoint 6 200);
      FluentScrollBar.EventMouseMove (FluentScrollBar.mkQPoint 6 250) ]
  ∧ (0 ≤ FluentScrollBar._value
           (FluentScrollBar.perform_all
              [ FluentScrollBar.CallSetValue 5000; FluentScrollBar.SlotPageUp;
                FluentScrollBar.EventMousePress (FluentScrollBar.mkQPoint 6 200);
                FluentScrollBar.EventMouseMove (FluentScrollBar.mkQPoint 6 250) ]
              FluentScrollBar.example_bar_ranged).1 ≤ 1000)%Z.
Proof.
  assert (Hops :
    Forall (λ op, FluentScrollBar.sets_range op = false)
      [ FluentScrollBar.CallSetValue 5000; FluentScrollBar.SlotPageUp;
        FluentScrollBar.EventMousePress (FluentScrollBar.mkQPoint 6 200);
        FluentScrollBar.EventMouseMove (FluentScrollBar.mkQPoint 6 250) ])
    by (repeat constructor).
  split; [exact Hops|].
  refine (proj2 (proj2 (scrollbar_value_stays_in_range _
            FluentScrollBar.example_bar_ranged Hops _))).
  by vm_compute.
Defined.

Lemma scrollbar_page_round_trip_witness :
  (1 ≤ FluentScrollBar._pageStep (FluentScrollBar.example_bar_at 500).1)%Z
  ∧ FluentScrollBar._value
      (FluentScrollBar._onPageDown
         (FluentScrollBar._onPageUp (FluentScrollBar.example_bar_at 500)).2).2.1
    = 500%Z.
Proof.
  assert (Hstep :
    (1 ≤ FluentScrollBar._pageStep (FluentScrollBar.example_bar_at 500).1)%Z)
    by (by vm_compute).
  split; [exact Hstep|].
  destruct (scrollbar_page_round_trip (FluentScrollBar.example_bar_at 500)
              Hstep) as (_ & Hback & _); [by vm_compute|by vm_compute|].
  rewrite Hback. reflexivity.
Defined.

Lemma scrollbar_press_on_handle_witness :
  FluentScrollBar.childAt_is_handle (FluentScrollBar.mkQPoint 6 20)
    (FluentScrollBar.super_mousePressEvent (FluentScrollBar.mkQPoint 6 20)
       FluentScrollBar.example_bar_ranged.2) = true
  ∧ FluentScrollBar.emitted
      (FluentScrollBar.mousePressEvent (FluentScrollBar.mkQPoint 6 20)
         FluentScrollBar.example_bar_ranged).2.1
    = FluentScrollBar.emitted FluentScrollBar.example_bar_ranged.1.
Proof.
  assert (Hhit :
    FluentScrollBar.childAt_is_handle (FluentScrollBar.mkQPoint 6 20)
      (FluentScrollBar.super_mousePressEvent (FluentScrollBar.mkQPoint 6 20)
         FluentScrollBar.example_bar_ranged.2) = true)
    by reflexivity.
  split; [exact Hhit|].
  rewrite (scrollbar_press_on_handle (FluentScrollBar.mkQPoint 6 20)
             FluentScrollBar.example_bar_ranged Hhit).
  reflexivity.
Defined.
